(** * LocalRank CLI: the report builders of [scripts/localrank.js]

    A shallow embedding of the analytics commands of the CLI
    ([client:report], [portfolio:summary], [prioritize:today],
    [quick-wins:find], [at-risk:clients]) and the properties of their
    output.

    Conventions of the embedding:
    - a JavaScript number is a rational [Q] (exact arithmetic; the
      rounding error of IEEE doubles is not modelled), [null] and
      [undefined] on input are [None];
    - a plain object used as a map is the list of its own properties in
      creation order, together with the properties every object literal
      inherits from [Object.prototype];
    - a [TypeError] raised by the code is the [Throw] outcome of the
      [result] monad; [main] turns it into an error message;
    - the answers of the remote API are the arguments of the commands. *)

From Stdlib Require Import String Ascii Bool ZArith NArith QArith Qround Qabs.
From Stdlib Require Import DecimalString Lia Lqa List Permutation Sorted.
Import ListNotations.

Local Open Scope string_scope.
Local Open Scope Z_scope.
Local Open Scope list_scope.

Set Warnings "-register-all".

(** ** JavaScript values and built-ins *)

Module Js.

(** [if (x)] on a number-or-null: [null] and [0] are falsy. *)
Definition truthy (x : option Q) : bool :=
  match x with
  | Some q => negb (Qeq_bool q 0)
  | None => false
  end.

(** [if (s)] on a string-or-null: [null] and the empty string are falsy. *)
Definition truthy_str (s : option string) : bool :=
  match s with
  | Some EmptyString => false
  | Some _ => true
  | None => false
  end.

Definition gtb (x y : Q) : bool := negb (Qle_bool x y).
Definition ltb (x y : Q) : bool := negb (Qle_bool y x).
Definition geb (x y : Q) : bool := Qle_bool y x.
Definition leb (x y : Q) : bool := Qle_bool x y.

(** [Math.round]: the nearest integer, a tie going up. *)
Definition Math_round (x : Q) : Z := Qfloor (x + (1 # 2)).

(** [Math.round(x * 10) / 10]. *)
Definition round1 (x : Q) : Q := Math_round (x * 10) # 10.

(** [Math.abs]. *)
Definition Math_abs (x : Q) : Q := Qabs x.

(** Printing of a number with one decimal, [z] being ten times the
    number: [85] is ["8.5"], [120] is ["12"], [-3] is ["-0.3"].
    (Exponent notation, which JavaScript uses from 1e21, is not
    modelled.) *)
Definition show_nat (z : Z) : string :=
  NilZero.string_of_uint (N.to_uint (Z.to_N z)).

Definition show_tenths (z : Z) : string :=
  let a := Z.abs z in
  ((if (z <? 0)%Z then "-" else EmptyString)
    ++ show_nat (a / 10)%Z
    ++ (if (a mod 10 =? 0)%Z then EmptyString else "." ++ show_nat (a mod 10)%Z))%string.

(** [`${Math.round(x * 10) / 10}`] *)
Definition show_round1 (x : Q) : string := show_tenths (Math_round (x * 10)).

(** The one-character string of a double quote. *)
Definition dquote : string := String (ascii_of_nat 34) EmptyString.

(** [hay.includes(needle)] *)
Fixpoint includes (needle hay : string) : bool :=
  String.prefix needle hay ||
  match hay with
  | EmptyString => false
  | String _ hay' => includes needle hay'
  end.

(** Outcome of a computation that may raise. *)
Inductive result (A : Type) : Type :=
| Ok (a : A)
| Throw (msg : string).
Arguments Ok {A} a.
Arguments Throw {A} msg.

Definition bind {A B} (m : result A) (k : A -> result B) : result B :=
  match m with
  | Ok a => k a
  | Throw e => Throw e
  end.

(** [xs.forEach(x => ...)] and [for (const x of xs)] over a body that
    updates a state and may raise. *)
Fixpoint forEach {A S} (body : S -> A -> result S) (xs : list A) (s : S)
  : result S :=
  match xs with
  | [] => Ok s
  | x :: xs' => bind (body s x) (forEach body xs')
  end.

(** *** Plain objects used as maps *)

(** The own properties of an object, in creation order. *)
Definition object (V : Type) : Type := list (string * V).

(** The names every object literal inherits from [Object.prototype];
    each of them is a function or an object, hence truthy, and none
    has a [push] method. *)
Definition Object_prototype : list string :=
  [ "constructor"; "__defineGetter__"; "__defineSetter__";
    "hasOwnProperty"; "__lookupGetter__"; "__lookupSetter__";
    "isPrototypeOf"; "propertyIsEnumerable"; "toString"; "valueOf";
    "__proto__"; "toLocaleString" ].

Definition inherited (k : string) : bool :=
  existsb (String.eqb k) Object_prototype.

Fixpoint own {V} (k : string) (o : object V) : option V :=
  match o with
  | [] => None
  | (k', v) :: o' => if String.eqb k k' then Some v else own k o'
  end.

(** [o[k] = v]: an existing own property keeps its place, a new one
    is created last. *)
Fixpoint set {V} (k : string) (v : V) (o : object V) : object V :=
  match o with
  | [] => [(k, v)]
  | (k', v') :: o' =>
      if String.eqb k k' then (k', v) :: o' else (k', v') :: set k v o'
  end.

(** An array index in the sense of the language: the canonical
    decimal writing of an integer below 2^32 - 1. *)
Definition digit (c : ascii) : option N :=
  let n := N_of_ascii c in
  if ((48 <=? n) && (n <=? 57))%N then Some (n - 48)%N else None.

Fixpoint digits (acc : N) (s : string) : option N :=
  match s with
  | EmptyString => Some acc
  | String c s' =>
      match digit c with
      | Some d => digits (acc * 10 + d)%N s'
      | None => None
      end
  end.

Definition array_index (k : string) : option N :=
  match k with
  | EmptyString => None
  | String "0" EmptyString => Some 0%N
  | String "0" _ => None
  | _ =>
      match digits 0 k with
      | Some n => if (n <? 4294967295)%N then Some n else None
      | None => None
      end
  end.

Definition is_index (k : string) : bool :=
  match array_index k with Some _ => true | None => false end.

Definition index_of (k : string) : N :=
  match array_index k with Some n => n | None => 0%N end.

(** [xs.sort(cmp)]: the sort is stable, so that for a comparator that
    is a total preorder the result is the one of any stable sort;
    [gt a b] is [cmp(a, b) > 0]. *)
Section Sort.
Variable A : Type.
Variable gt : A -> A -> bool.

Fixpoint insert (x : A) (l : list A) : list A :=
  match l with
  | [] => [x]
  | y :: l' => if gt x y then y :: insert x l' else x :: l
  end.

Fixpoint sort (l : list A) : list A :=
  match l with
  | [] => []
  | x :: l' => insert x (sort l')
  end.
End Sort.
Arguments insert {A} gt x l.
Arguments sort {A} gt l.

(** [Object.entries(o)] (also the order of [Object.keys]): the array
    indices in ascending numeric order, then the other names in
    creation order. *)
Definition Object_entries {V} (o : object V) : list (string * V) :=
  sort (fun a b => (index_of (fst b) <? index_of (fst a))%N)
       (filter (fun e => is_index (fst e)) o)
  ++ filter (fun e => negb (is_index (fst e))) o.

End Js.

Import Js.

(** ** Data model: the records of the remote API *)

Record Business : Type := {
  name : string;            (* [business.name] *)
  place_id : string
}.

Record KeywordResult : Type := {
  keyword : string;
  kw_avg_rank : option Q;   (* [kw.avg_rank] *)
  best_rank : option Q;
  found_count : Z
}.

(** A scan as the listing [/api/scans/] and the detail
    [/api/scans/<uuid>/] return it. *)
Record Scan : Type := {
  uuid : string;
  business : option Business;
  avg_rank : option Q;
  created_at : string;      (* ISO-8601 time stamp *)
  keywords : list string;
  public_share_token : option string;
  keyword_results : list KeywordResult
}.

(** The operand of an arithmetic operator: [null] counts as [0]. *)
Definition num (x : option Q) : Q :=
  match x with Some q => q | None => 0%Q end.

(** [scan.business?.name || 'Unknown'] *)
Definition business_name_of (scan : Scan) : string :=
  match business scan with
  | Some b => if String.eqb (name b) EmptyString then "Unknown" else name b
  | None => "Unknown"
  end.

(** [`https://app.localrank.so/share/${token}`] *)
Definition share_url (token : string) : string :=
  ("https://app.localrank.so/share/" ++ token)%string.

(** ** Grouping of the scans by business

    [[
    const byBusiness = {};
    results.forEach(scan => {
      const name = scan.business?.name || 'Unknown';
      if (!byBusiness[name]) byBusiness[name] = [];
      byBusiness[name].push(scan);
    });
    ]]
    A read [byBusiness[name]] finds an own property or, failing that, an
    inherited one.  The assignment runs only for a name that is neither,
    so that it always creates an own property. *)

Definition group_body (byBusiness : object (list Scan)) (scan : Scan)
  : result (object (list Scan)) :=
  let name := business_name_of scan in
  let byBusiness :=
    match own name byBusiness with
    | Some _ => byBusiness
    | None => if inherited name then byBusiness else set name [] byBusiness
    end in
  match own name byBusiness with
  | Some scans => Ok (set name (scans ++ [scan]) byBusiness)
  | None => Throw "byBusiness[name].push is not a function"
  end.

Definition group_scans (results : list Scan) : result (object (list Scan)) :=
  forEach group_body results [].

(** The sequences of all the groups, one after the other. *)
Definition flatten (byBusiness : object (list Scan)) : list Scan :=
  concat (map snd byBusiness).

(** ** [at-risk:clients] *)

Record AtRisk : Type := {
  business_name : string;
  risk_score : Z;
  risk_factors : list string;
  action : string
}.

(** [scans[1].avg_rank], read only where [scans.length >= 2]. *)
Definition second_rank (scans : list Scan) : option Q :=
  match nth_error scans 1 with
  | Some s => avg_rank s
  | None => None
  end.

(** The three rules of the loop body, on the running
    [(riskFactors, riskScore)]. *)
Definition rule_dropped (scans : list Scan) (avgRank : option Q)
  (st : list string * Z) : list string * Z :=
  if (2 <=? length scans)%nat then
    let prev := second_rank scans in
    if truthy avgRank && truthy prev && gtb (num avgRank - num prev) 2 then
      (fst st ++ [("Rankings dropped from " ++ show_round1 (num prev)
                   ++ " to " ++ show_round1 (num avgRank))%string],
       snd st + 3)
    else st
  else st.

Definition rule_poor (avgRank : option Q) (st : list string * Z)
  : list string * Z :=
  if truthy avgRank && gtb (num avgRank) 15 then
    (fst st ++ [("Poor visibility (avg rank " ++ show_round1 (num avgRank)
                 ++ ")")%string],
     snd st + 2)
  else st.

Definition rule_single (scans : list Scan) (st : list string * Z)
  : list string * Z :=
  if (length scans =? 1)%nat then
    (fst st ++ ["Only 1 scan - low engagement"], snd st + 1)
  else st.

(** [riskFactors] and [riskScore] of one business. *)
Definition risk_of (scans : list Scan) (latest : Scan) : list string * Z :=
  let avgRank := avg_rank latest in
  rule_single scans (rule_poor avgRank (rule_dropped scans avgRank ([], 0))).

Definition at_risk_body (atRisk : list AtRisk) (entry : string * list Scan)
  : result (list AtRisk) :=
  let '(name, scans) := entry in
  match scans with
  | [] => Throw "Cannot read properties of undefined (reading 'avg_rank')"
  | latest :: _ =>
      let '(riskFactors, riskScore) := risk_of scans latest in
      if riskScore >? 0 then
        Ok (atRisk ++ [ {| business_name := name;
                           risk_score := riskScore;
                           risk_factors := riskFactors;
                           action := "Reach out proactively" |} ])
      else Ok atRisk
  end.

(** [atRisk.sort((a, b) => b.risk_score - a.risk_score)] *)
Definition by_risk (a b : AtRisk) : bool := risk_score b - risk_score a >? 0.

Definition at_risk_clients (results : list Scan) : result (list AtRisk) :=
  bind (group_scans results) (fun byBusiness =>
  bind (forEach at_risk_body (Object_entries byBusiness) []) (fun atRisk =>
  Ok (sort by_risk atRisk))).

(** ** Printed output: JSON values *)

Inductive json : Type :=
| JNull
| JNum (q : Q)
| JStr (s : string)
| JArr (items : list json)
| JObj (fields : list (string * json)).

Definition jnum (x : option Q) : json :=
  match x with Some q => JNum q | None => JNull end.

Definition jstr (x : option string) : json :=
  match x with Some s => JStr s | None => JNull end.

Definition jint (z : Z) : json := JNum (inject_Z z).

(** ** [portfolio:summary] *)

Inductive Status : Type := Improving | Declining | Stable | New.

Definition status_name (s : Status) : string :=
  match s with
  | Improving => "improving"
  | Declining => "declining"
  | Stable => "stable"
  | New => "new"
  end.

(** [const order = { declining: 0, improving: 1, stable: 2, new: 3 }] *)
Definition order (s : Status) : Z :=
  match s with
  | Declining => 0
  | Improving => 1
  | Stable => 2
  | New => 3
  end.

(** One element of [summary.clients]; the object literal writes all five
    properties, [None] being printed as [null]. *)
Record Client : Type := {
  client_name : string;
  status : Status;
  client_avg_rank : option Q;
  change : option Q;
  view_url : option string
}.

Record Summary : Type := {
  total_clients : Z;
  total_scans : Z;
  improving : Z;
  declining : Z;
  stable : Z;
  clients : list Client;
  avg_rank_across_portfolio : option Q
}.

(** [status] and [change] of one business:
    [[
    let status = 'new', change = null;
    if (scans.length >= 2) {
      const prev = scans[1].avg_rank;
      if (avgRank && prev) {
        change = prev - avgRank;
        if (change > 0.5) ... else if (change < -0.5) ... else ...
      }
    }
    ]] *)
Definition classify (scans : list Scan) (avgRank : option Q)
  : Status * option Q :=
  if (2 <=? length scans)%nat then
    let prev := second_rank scans in
    if truthy avgRank && truthy prev then
      let change := (num prev - num avgRank)%Q in
      if gtb change (1 # 2) then (Improving, Some change)
      else if ltb change (- (1 # 2)) then (Declining, Some change)
      else (Stable, Some change)
    else (New, None)
  else (New, None).

(** The state of the loop: the summary, [totalRank] and [rankCount]. *)
Record Portfolio : Type := {
  summary : Summary;
  totalRank : Q;
  rankCount : Z
}.

Definition count (st s : Status) : Z := if Z.eqb (order st) (order s) then 1 else 0.

Definition portfolio_body (p : Portfolio) (entry : string * list Scan)
  : result Portfolio :=
  let '(name, scans) := entry in
  match scans with
  | [] => Throw "Cannot read properties of undefined (reading 'avg_rank')"
  | latest :: _ =>
      let avgRank := avg_rank latest in
      let rated := truthy avgRank in
      let '(st, chg) := classify scans avgRank in
      let s := summary p in
      Ok {| summary :=
              {| total_clients := total_clients s;
                 total_scans := total_scans s;
                 improving := improving s + count st Improving;
                 declining := declining s + count st Declining;
                 stable := stable s + count st Stable;
                 clients := clients s ++
                   [ {| client_name := name;
                        status := st;
                        client_avg_rank :=
                          if rated then Some (round1 (num avgRank)) else None;
                        change :=
                          if truthy chg then Some (round1 (num chg)) else None;
                        view_url :=
                          if truthy_str (public_share_token latest)
                          then option_map share_url (public_share_token latest)
                          else None |} ];
                 avg_rank_across_portfolio := avg_rank_across_portfolio s |};
            totalRank := if rated then (totalRank p + num avgRank)%Q
                         else totalRank p;
            rankCount := if rated then rankCount p + 1 else rankCount p |}
  end.

(** [summary.clients.sort((a, b) => order[a.status] - order[b.status])] *)
Definition by_status (a b : Client) : bool :=
  order (status a) - order (status b) >? 0.

Definition portfolio_summary (results : list Scan) : result Summary :=
  bind (group_scans results) (fun byBusiness =>
  let entries := Object_entries byBusiness in
  let init :=
    {| summary := {| total_clients := Z.of_nat (length entries);
                     total_scans := Z.of_nat (length results);
                     improving := 0; declining := 0; stable := 0;
                     clients := [];
                     avg_rank_across_portfolio := None |};
       totalRank := 0%Q;
       rankCount := 0 |} in
  bind (forEach portfolio_body entries init) (fun p =>
  let s := summary p in
  Ok {| total_clients := total_clients s;
        total_scans := total_scans s;
        improving := improving s;
        declining := declining s;
        stable := stable s;
        clients := sort by_status (clients s);
        avg_rank_across_portfolio :=
          if rankCount p >? 0
          then Some (round1 (totalRank p / inject_Z (rankCount p)))
          else None |})).

Definition client_json (c : Client) : json :=
  JObj [ ("name", JStr (client_name c));
         ("status", JStr (status_name (status c)));
         ("avg_rank", jnum (client_avg_rank c));
         ("change", jnum (change c));
         ("view_url", jstr (view_url c)) ].

(** The printed summary; [avg_rank_across_portfolio] is assigned after
    the literal and so comes last. *)
Definition summary_json (s : Summary) : json :=
  JObj [ ("total_clients", jint (total_clients s));
         ("total_scans", jint (total_scans s));
         ("improving", jint (improving s));
         ("declining", jint (declining s));
         ("stable", jint (stable s));
         ("clients", JArr (map client_json (clients s)));
         ("avg_rank_across_portfolio", jnum (avg_rank_across_portfolio s)) ].

(** ** The commands that fetch scan details *)

Section Commands.

(** [apiGet(`/api/scans/${uuid}/`)]: the detail of a scan. *)
Variable apiGet_scan : string -> Scan.

(** [String.prototype.toLowerCase] *)
Variable toLowerCase : string -> string.

(** *** [prioritize:today] *)

Record Task : Type := {
  client : string;
  task : string;
  reason : string
}.

Record DailyWin : Type := {
  win_client : string;
  win_keyword : string;
  win_current_rank : Q;
  win_positions_to_page_1 : Q
}.

Record Priorities : Type := {
  urgent : list Task;
  important : list Task;
  quick_wins : list DailyWin
}.

(** [kw.avg_rank && kw.avg_rank >= 11 && kw.avg_rank <= 15] *)
Definition daily_quick_win (kw : KeywordResult) : bool :=
  truthy (kw_avg_rank kw)
  && geb (num (kw_avg_rank kw)) 11 && leb (num (kw_avg_rank kw)) 15.

Definition prioritize_body (p : Priorities) (entry : string * list Scan)
  : result Priorities :=
  let '(name, scans) := entry in
  match scans with
  | [] => Throw "Cannot read properties of undefined (reading 'avg_rank')"
  | latest :: _ =>
      let avgRank := avg_rank latest in
      (* Urgent: big drops *)
      let urgent' :=
        if (2 <=? length scans)%nat then
          let prev := second_rank scans in
          if truthy avgRank && truthy prev
             && gtb (num avgRank - num prev) 3 then
            urgent p ++
            [ {| client := name;
                 task := "Investigate ranking drop";
                 reason := ("Dropped from " ++ show_round1 (num prev)
                            ++ " to " ++ show_round1 (num avgRank))%string |} ]
          else urgent p
        else urgent p in
      (* Important: poor rankings *)
      let important' :=
        if truthy avgRank && gtb (num avgRank) 12 then
          important p ++
          [ {| client := name;
               task := "Improve rankings";
               reason := ("Average rank is "
                          ++ show_round1 (num avgRank))%string |} ]
        else important p in
      (* Quick wins: the first keyword close to page 1 *)
      let detail := apiGet_scan (uuid latest) in
      let quick_wins' :=
        match find daily_quick_win (keyword_results detail) with
        | Some kw =>
            quick_wins p ++
            [ {| win_client := name;
                 win_keyword := keyword kw;
                 win_current_rank := round1 (num (kw_avg_rank kw));
                 win_positions_to_page_1 :=
                   round1 (num (kw_avg_rank kw) - 10) |} ]
        | None => quick_wins p
        end in
      Ok {| urgent := urgent'; important := important';
            quick_wins := quick_wins' |}
  end.

Definition prioritize_today (results : list Scan) : result Priorities :=
  bind (group_scans results) (fun byBusiness =>
  bind (forEach prioritize_body (Object_entries byBusiness)
          {| urgent := []; important := []; quick_wins := [] |}) (fun p =>
  (* Limit results *)
  Ok {| urgent := firstn 5 (urgent p);
        important := firstn 5 (important p);
        quick_wins := firstn 5 (quick_wins p) |})).

(** *** [quick-wins:find] *)

Record QuickWin : Type := {
  qw_business_name : string;
  qw_keyword : string;
  current_rank : Q;
  positions_to_page_1 : Q;
  opportunity : string
}.

Record QuickWins : Type := {
  quick_wins_shown : list QuickWin;   (* [quick_wins] *)
  total : Z
}.

(** [kw.avg_rank && kw.avg_rank >= 11 && kw.avg_rank <= 20] *)
Definition quick_win (kw : KeywordResult) : bool :=
  truthy (kw_avg_rank kw)
  && geb (num (kw_avg_rank kw)) 11 && leb (num (kw_avg_rank kw)) 20.

(** [kw.avg_rank <= 15 ? 'High' : 'Medium'] *)
Definition opportunity_of (kw : KeywordResult) : string :=
  if leb (num (kw_avg_rank kw)) 15 then "High" else "Medium".

Definition quick_win_entry (name : string) (kw : KeywordResult) : QuickWin :=
  {| qw_business_name := name;
     qw_keyword := keyword kw;
     current_rank := round1 (num (kw_avg_rank kw));
     positions_to_page_1 := round1 (num (kw_avg_rank kw) - 10);
     opportunity := opportunity_of kw |}.

(** [s.business?.name?.toLowerCase().includes(term)] *)
Definition name_matches (term : string) (s : Scan) : bool :=
  match business s with
  | Some b => includes term (toLowerCase (name b))
  | None => false
  end.

(** Get latest per business:
    [if (!byBusiness[name]) byBusiness[name] = scan;] *)
Definition latest_body (byBusiness : object Scan) (scan : Scan)
  : result (object Scan) :=
  let name := business_name_of scan in
  match own name byBusiness with
  | Some _ => Ok byBusiness
  | None => if inherited name then Ok byBusiness
            else Ok (set name scan byBusiness)
  end.

Definition quick_wins_body (quickWins : list QuickWin)
  (entry : string * Scan) : result (list QuickWin) :=
  let '(name, scan) := entry in
  let detail := apiGet_scan (uuid scan) in
  Ok (quickWins
      ++ map (quick_win_entry name)
             (filter quick_win (keyword_results detail))).

(** [quickWins.sort((a, b) => a.current_rank - b.current_rank)] *)
Definition by_current_rank (a b : QuickWin) : bool :=
  gtb (current_rank a - current_rank b) 0.

Definition quick_wins_find (businessFilter : option string)
  (results : list Scan) : result QuickWins :=
  let businessFilter := option_map toLowerCase businessFilter in
  let scans :=
    if truthy_str businessFilter
    then filter (name_matches (match businessFilter with
                               | Some t => t | None => EmptyString end)) results
    else results in
  bind (forEach latest_body scans []) (fun byBusiness =>
  bind (forEach quick_wins_body (Object_entries byBusiness) [])
    (fun quickWins =>
  let quickWins := sort by_current_rank quickWins in
  Ok {| quick_wins_shown := firstn 20 quickWins;
        total := Z.of_nat (length quickWins) |})).

(** *** [client:report] *)

(** What the command leaves on the terminal: a usage message (and
    exit code 1) or a JSON document. *)
Inductive output : Type :=
| Usage (msg : string)
| Printed (document : json).

(** The object [prevKwRanks], assigned without a guard.  While the
    object has its prototype, an assignment to ["__proto__"] runs the
    inherited setter: [null] removes the prototype and a number is
    ignored; no own property is created. *)
Record KwRanks : Type := {
  own_ranks : object (option Q);
  has_prototype : bool
}.

Definition assign_rank (m : KwRanks) (kw : KeywordResult) : KwRanks :=
  if String.eqb (keyword kw) "__proto__" && has_prototype m then
    match kw_avg_rank kw with
    | None => {| own_ranks := own_ranks m; has_prototype := false |}
    | Some _ => m
    end
  else {| own_ranks := set (keyword kw) (kw_avg_rank kw) (own_ranks m);
          has_prototype := has_prototype m |}.

Definition win_json (kw : string) (prev current change : Q) : json :=
  JObj [ ("keyword", JStr kw); ("from", JNum prev); ("to", JNum current);
         ("improved_by", JNum (round1 change)) ].

Definition drop_json (kw : string) (prev current change : Q) : json :=
  JObj [ ("keyword", JStr kw); ("from", JNum prev); ("to", JNum current);
         ("dropped_by", JNum (round1 (Math_abs change))) ].

(** The comparison of one keyword of the latest scan, on the running
    [(wins, drops)].  A name that is not an own property of
    [prevKwRanks] reads as [undefined], or as an inherited function
    whose difference with a number is [NaN]: nothing is pushed. *)
Definition compare_body (prevKwRanks : KwRanks)
  (st : list json * list json) (kw : KeywordResult)
  : list json * list json :=
  match own (keyword kw) (own_ranks prevKwRanks) with
  | Some prev =>
      let current := kw_avg_rank kw in
      if truthy prev && truthy current then
        let change := (num prev - num current)%Q in
        if gtb change 0 then
          (fst st ++ [win_json (keyword kw) (num prev) (num current) change],
           snd st)
        else if ltb change 0 then
          (fst st,
           snd st ++ [drop_json (keyword kw) (num prev) (num current) change])
        else st
      else st
  | None => st
  end.

Definition keyword_json (kw : KeywordResult) : json :=
  JObj [ ("keyword", JStr (keyword kw));
         ("avg_rank", jnum (kw_avg_rank kw));
         ("best_rank", jnum (best_rank kw)) ].

(** [wins] and [drops] of the report. *)
Definition wins_drops (clientScans : list Scan) (latestDetail : Scan)
  : list json * list json :=
  match clientScans with
  | _ :: previous :: _ =>
      let previousDetail := apiGet_scan (uuid previous) in
      let prevKwRanks :=
        fold_left assign_rank (keyword_results previousDetail)
          {| own_ranks := []; has_prototype := true |} in
      fold_left (compare_body prevKwRanks) (keyword_results latestDetail)
        ([], [])
  | _ => ([], [])
  end.

Definition client_report (businessName : string) (results : list Scan)
  : output :=
  if String.eqb businessName EmptyString then
    Usage ("Usage: localrank client:report --business " ++ dquote
           ++ "Business Name" ++ dquote)%string
  else
    let searchTerm := toLowerCase businessName in
    let clientScans := filter (name_matches searchTerm) results in
    match clientScans with
    | [] =>
        Printed (JObj [ ("error", JStr ("No scans found for '"
                                        ++ businessName ++ "'")%string) ])
    | latest :: _ =>
        let latestDetail := apiGet_scan (uuid latest) in
        let '(wins, drops) := wins_drops clientScans latestDetail in
        let report :=
          match business latest with
          | Some b => [ ("business_name", JStr (name b)) ]
          | None => []
          end ++
          [ ("latest_scan",
             JObj [ ("date", JStr (created_at latestDetail));
                    ("avg_rank", jnum (avg_rank latestDetail));
                    ("keywords",
                     JArr (map keyword_json
                             (keyword_results latestDetail))) ]);
            ("wins", JArr wins);
            ("drops", JArr drops);
            ("total_scans", jint (Z.of_nat (length clientScans))) ] in
        let report :=
          if truthy_str (public_share_token latestDetail) then
            set "view_url"
              (jstr (option_map share_url (public_share_token latestDetail)))
              report
          else report in
        Printed (JObj report)
    end.

End Commands.

(** The property [k] of a printed object: [None] when the document has
    no such property. *)
Definition field (k : string) (j : json) : option json :=
  match j with
  | JObj fields => own k fields
  | _ => None
  end.

(** * Specification-side definitions and sample data *)

(** ** The groups and the loops as lists *)

(** The scans of the business [k]. *)
Definition name_is (k : string) (scan : Scan) : bool :=
  String.eqb (business_name_of scan) k.

(** What a group holds after more scans have been read. *)
Definition grouped (before : option (list Scan)) (more : list Scan)
  : option (list Scan) :=
  match before, more with
  | Some l, _ => Some (l ++ more)
  | None, [] => None
  | None, _ => Some more
  end.

(** Grouping raises exactly when a business bears a name that an
    object literal inherits. *)
Definition groupable (results : list Scan) : bool :=
  forallb (fun scan => negb (inherited (business_name_of scan))) results.

(** The names of a list, each at its first occurrence. *)
Fixpoint add_names (seen names : list string) : list string :=
  match names with
  | [] => seen
  | n :: names' =>
      add_names (if existsb (String.eqb n) seen then seen else seen ++ [n])
        names'
  end.

Definition first_seen (names : list string) : list string :=
  add_names [] names.

(** The element of [atRisk] for one business. *)
Definition risk_entry (entry : string * list Scan) : list AtRisk :=
  match snd entry with
  | [] => []
  | latest :: _ =>
      if snd (risk_of (snd entry) latest) >? 0 then
        [ {| business_name := fst entry;
             risk_score := snd (risk_of (snd entry) latest);
             risk_factors := fst (risk_of (snd entry) latest);
             action := "Reach out proactively" |} ]
      else []
  end.

(** ** Sample data *)

Module Sample.

Definition scan_of (id business_name : string) (rank : option Q)
  (time : string) (token : option string) (kws : list KeywordResult) : Scan :=
  {| uuid := id;
     business := Some {| name := business_name; place_id := "place" |};
     avg_rank := rank;
     created_at := time;
     keywords := map keyword kws;
     public_share_token := token;
     keyword_results := kws |}.

Definition kw (k : string) (rank : option Q) : KeywordResult :=
  {| keyword := k; kw_avg_rank := rank; best_rank := rank; found_count := 9 |}.

(** Acme, scanned in January (average rank 8.5) and again in February
    (4.2), listed oldest first. *)
Definition acme_jan : Scan :=
  scan_of "s1" "Acme" (Some (85 # 10)) "2026-01-05T09:00:00Z" None
    [kw "plumber near me" (Some (85 # 10))].
Definition acme_feb : Scan :=
  scan_of "s2" "Acme" (Some (42 # 10)) "2026-02-05T09:00:00Z" (Some "abc123")
    [kw "plumber near me" (Some (42 # 10)); kw "drain repair" (Some 12%Q)].

(** Other businesses. *)
Definition bolt_new : Scan :=
  scan_of "s3" "Bolt" (Some 16%Q) "2026-02-03T09:00:00Z" None
    [kw "electrician" (Some 16%Q); kw "rewiring" (Some 11%Q)].
Definition bolt_old : Scan :=
  scan_of "s4" "Bolt" (Some 0%Q) "2026-01-03T09:00:00Z" None [].
Definition cafe : Scan :=
  scan_of "s5" "Cafe" (Some 9%Q) "2026-02-01T09:00:00Z" None [].
Definition dent_new : Scan :=
  scan_of "s6" "Dent" (Some 18%Q) "2026-02-02T09:00:00Z" None [].
Definition dent_old : Scan :=
  scan_of "s7" "Dent" (Some 12%Q) "2026-01-02T09:00:00Z" None [].
Definition fern_new : Scan :=
  scan_of "s10" "Fern" (Some 0%Q) "2026-02-06T09:00:00Z" None [].

(** A business whose name is one that object literals inherit. *)
Definition constructor_scan : Scan :=
  scan_of "s12" "constructor" (Some 7%Q) "2026-02-07T09:00:00Z" None [].

Definition portfolio : list Scan :=
  [ bolt_new; bolt_old; cafe; dent_new; dent_old ].

(** The detail of a scan, by identifier. *)
Definition details (all : list Scan) (id : string) : Scan :=
  match find (fun s => String.eqb (uuid s) id) all with
  | Some s => s
  | None => scan_of id "Unknown" None "1970-01-01T00:00:00Z" None []
  end.

(** Lower-casing of the letters A to Z. *)
Definition lower_ascii (c : ascii) : ascii :=
  let n := nat_of_ascii c in
  if ((65 <=? n) && (n <=? 90))%nat then ascii_of_nat (n + 32) else c.

Fixpoint lower (s : string) : string :=
  match s with
  | EmptyString => EmptyString
  | String c s' => String (lower_ascii c) (lower s')
  end.

End Sample.

(** ** Definitions in the words of the specification *)

(** Newest first: no scan is created later than one before it in the
    sequence.  Time stamps of one ISO-8601 format order as their text. *)
Fixpoint newest_first (scans : list Scan) : bool :=
  match scans with
  | [] => true
  | a :: rest =>
      forallb (fun b => String.leb (created_at b) (created_at a)) rest
      && newest_first rest
  end.

(** The score of a group, [0] for a group without scans. *)
Definition score_of (scans : list Scan) : Z :=
  match scans with
  | [] => 0
  | latest :: _ => snd (risk_of scans latest)
  end.

(** A rank of [0] read as a missing rank. *)
Definition zero_as_null (x : option Q) : option Q :=
  if truthy x then x else None.

Definition kw_zero_as_null (kw : KeywordResult) : KeywordResult :=
  {| keyword := keyword kw;
     kw_avg_rank := zero_as_null (kw_avg_rank kw);
     best_rank := best_rank kw;
     found_count := found_count kw |}.

Definition scan_zero_as_null (scan : Scan) : Scan :=
  {| uuid := uuid scan;
     business := business scan;
     avg_rank := zero_as_null (avg_rank scan);
     created_at := created_at scan;
     keywords := keywords scan;
     public_share_token := public_share_token scan;
     keyword_results := map kw_zero_as_null (keyword_results scan) |}.






(** The element of [summary.clients] for one business. *)
Definition client_of (entry : string * list Scan) : list Client :=
  match snd entry with
  | [] => []
  | latest :: _ =>
      [ {| client_name := fst entry;
           status := fst (classify (snd entry) (avg_rank latest));
           client_avg_rank :=
             if truthy (avg_rank latest)
             then Some (round1 (num (avg_rank latest))) else None;
           change :=
             if truthy (snd (classify (snd entry) (avg_rank latest)))
             then Some (round1 (num (snd (classify (snd entry)
                                            (avg_rank latest)))))
             else None;
           view_url :=
             if truthy_str (public_share_token latest)
             then option_map share_url (public_share_token latest)
             else None |} ]
  end.





(** The names and the statuses of a summary. *)
Definition statuses (r : result Summary) : list (string * Status) :=
  match r with
  | Ok s => map (fun c => (client_name c, status c)) (clients s)
  | Throw _ => []
  end.

(** The summary of Dent's two scans (average rank 12, then 18). *)
Definition dent_client : Client :=
  {| client_name := "Dent"; status := Declining;
     client_avg_rank := Some (180 # 10);
     change := Some (-60 # 10);
     view_url := None |}.

Definition dent_summary : Summary :=
  {| total_clients := 1; total_scans := 2;
     improving := 0; declining := 1; stable := 0;
     clients := [ dent_client ];
     avg_rank_across_portfolio := Some (180 # 10) |}.


(** The scans that [client:report] selects. *)
Definition client_scans (toLowerCase : string -> string)
  (businessName : string) (results : list Scan) : list Scan :=
  filter (name_matches toLowerCase (toLowerCase businessName)) results.

(** The report on Acme, its February scan listed first. *)
Definition acme_listing : list Scan := [Sample.acme_feb; Sample.acme_jan].

Definition acme_report : json :=
  JObj [ ("business_name", JStr "Acme");
         ("latest_scan",
          JObj [ ("date", JStr "2026-02-05T09:00:00Z");
                 ("avg_rank", JNum (42 # 10));
                 ("keywords",
                  JArr [ JObj [ ("keyword", JStr "plumber near me");
                                ("avg_rank", JNum (42 # 10));
                                ("best_rank", JNum (42 # 10)) ];
                         JObj [ ("keyword", JStr "drain repair");
                                ("avg_rank", JNum 12);
                                ("best_rank", JNum 12) ] ]) ]);
         ("wins", JArr [ JObj [ ("keyword", JStr "plumber near me");
                                ("from", JNum (85 # 10));
                                ("to", JNum (42 # 10));
                                ("improved_by", JNum (43 # 10)) ] ]);
         ("drops", JArr []);
         ("total_scans", JNum 2);
         ("view_url", JStr "https://app.localrank.so/share/abc123") ].

(** The same object with [f] applied to the values. *)
Definition map_values (V W : Type) (f : V -> W) (o : object V) : object W :=
  map (fun e => (fst e, f (snd e))) o.

Definition map_result (A B : Type) (f : A -> B) (r : result A) : result B :=
  bind r (fun a => Ok (f a)).

(** The entry of a business with its ranks of 0 read as missing. *)
Definition entry_zero_as_null (entry : string * list Scan)
  : string * list Scan :=
  (fst entry, map scan_zero_as_null (snd entry)).

(** The client report on Fern, whose only scan has the rank 0, and the
    report on the same scan with the rank missing. *)
Definition fern_report (rank : json) : json :=
  JObj [ ("business_name", JStr "Fern");
         ("latest_scan",
          JObj [ ("date", JStr "2026-02-06T09:00:00Z");
                 ("avg_rank", rank);
                 ("keywords", JArr []) ]);
         ("wins", JArr []);
         ("drops", JArr []);
         ("total_scans", JNum 1) ].

(** * Further definitions

    The loops of the report builders as lists, and the commands
    [recommendations:get] and [email:draft] with the parser of the
    command line, [parseArgs]. *)

(** ** The loops of the summary and of the daily priorities as lists *)

(** Whether a client has the status [st]. *)
Definition has_status (st : Status) (c : Client) : bool :=
  Z.eqb (order (status c)) (order st).

Definition count_status (st : Status) (cs : list Client) : Z :=
  Z.of_nat (length (filter (has_status st) cs)).

(** The latest rank of a business, where it counts for the average. *)
Definition rated_rank (entry : string * list Scan) : list Q :=
  match snd entry with
  | latest :: _ =>
      if truthy (avg_rank latest) then [num (avg_rank latest)] else []
  | [] => []
  end.

(** [totalRank] after the ranks have been added, one after the other. *)
Definition sum_ranks (ranks : list Q) (from : Q) : Q :=
  fold_left Qplus ranks from.

(** The mean of the ranks, rounded to one decimal; none for no rank. *)
Definition rounded_mean (ranks : list Q) : option Q :=
  match ranks with
  | [] => None
  | _ :: _ =>
      Some (round1 (sum_ranks ranks 0 / inject_Z (Z.of_nat (length ranks))))
  end.

(** The elements of the three buckets for one business. *)
Definition urgent_of (entry : string * list Scan) : list Task :=
  match snd entry with
  | [] => []
  | latest :: _ =>
      if (2 <=? length (snd entry))%nat
         && (truthy (avg_rank latest) && truthy (second_rank (snd entry))
             && gtb (num (avg_rank latest) - num (second_rank (snd entry))) 3)
      then
        [ {| client := fst entry;
             task := "Investigate ranking drop";
             reason := ("Dropped from "
                        ++ show_round1 (num (second_rank (snd entry)))
                        ++ " to "
                        ++ show_round1 (num (avg_rank latest)))%string |} ]
      else []
  end.

Definition important_of (entry : string * list Scan) : list Task :=
  match snd entry with
  | [] => []
  | latest :: _ =>
      if truthy (avg_rank latest) && gtb (num (avg_rank latest)) 12 then
        [ {| client := fst entry;
             task := "Improve rankings";
             reason := ("Average rank is "
                        ++ show_round1 (num (avg_rank latest)))%string |} ]
      else []
  end.

Definition daily_of (api : string -> Scan) (entry : string * list Scan)
  : list DailyWin :=
  match snd entry with
  | [] => []
  | latest :: _ =>
      match find daily_quick_win (keyword_results (api (uuid latest))) with
      | Some kw =>
          [ {| win_client := fst entry;
               win_keyword := keyword kw;
               win_current_rank := round1 (num (kw_avg_rank kw));
               win_positions_to_page_1 :=
                 round1 (num (kw_avg_rank kw) - 10) |} ]
      | None => []
      end
  end.

(** The priorities of the sample portfolio. *)
Definition sample_priorities : Priorities :=
  {| urgent :=
       [ {| client := "Dent"; task := "Investigate ranking drop";
            reason := "Dropped from 12 to 18" |} ];
     important :=
       [ {| client := "Bolt"; task := "Improve rankings";
            reason := "Average rank is 16" |};
         {| client := "Dent"; task := "Improve rankings";
            reason := "Average rank is 18" |} ];
     quick_wins :=
       [ {| win_client := "Bolt"; win_keyword := "rewiring";
            win_current_rank := 110 # 10;
            win_positions_to_page_1 := 10 # 10 |} ] |}.


(** ** The loops of the quick-win listing as lists *)

(** The scans that [quick-wins:find] looks at. *)
Definition quick_win_scans (toLowerCase : string -> string)
  (businessFilter : option string) (results : list Scan) : list Scan :=
  if truthy_str (option_map toLowerCase businessFilter)
  then filter (name_matches toLowerCase
                 (match option_map toLowerCase businessFilter with
                  | Some t => t
                  | None => EmptyString
                  end)) results
  else results.

(** The quick wins of one business. *)
Definition wins_of (api : string -> Scan) (entry : string * Scan)
  : list QuickWin :=
  map (quick_win_entry (fst entry))
      (filter quick_win (keyword_results (api (uuid (snd entry))))).

(** The quick wins of the sample portfolio. *)
Definition sample_quick_wins : QuickWins :=
  {| quick_wins_shown :=
       [ {| qw_business_name := "Bolt"; qw_keyword := "rewiring";
            current_rank := 110 # 10; positions_to_page_1 := 10 # 10;
            opportunity := "High" |};
         {| qw_business_name := "Bolt"; qw_keyword := "electrician";
            current_rank := 160 # 10; positions_to_page_1 := 60 # 10;
            opportunity := "Medium" |} ];
     total := 2 |}.

(** ** The wins and the drops of the client report *)

(** What the comparison of the keywords pushes. *)
Definition is_win (m : KwRanks) (kws : list KeywordResult) (j : json) : Prop :=
  exists kw p c,
    In kw kws
    /\ own (keyword kw) (own_ranks m) = Some (Some p)
    /\ kw_avg_rank kw = Some c
    /\ ~ (p == 0)%Q /\ ~ (c == 0)%Q /\ (c < p)%Q
    /\ j = win_json (keyword kw) p c (p - c).

Definition is_drop (m : KwRanks) (kws : list KeywordResult) (j : json)
  : Prop :=
  exists kw p c,
    In kw kws
    /\ own (keyword kw) (own_ranks m) = Some (Some p)
    /\ kw_avg_rank kw = Some c
    /\ ~ (p == 0)%Q /\ ~ (c == 0)%Q /\ (p < c)%Q
    /\ j = drop_json (keyword kw) p c (p - c).

(** ** [recommendations:get] *)

(** One recommendation; the one of the no-data answer has no reason. *)
Record Advice : Type := {
  advice_action : string;
  advice_product : string;
  advice_reason : option string
}.

Inductive advice_output : Type :=
| AdviceUsage (msg : string)
| AdviceNoData (error : string) (recommendations : list Advice)
| AdviceFor (business_name : option string) (current_avg_rank : option Q)
    (recommendations : list Advice).

(** The four rules, in the order of the source.  The scan is a record
    of the JSON listing: a scan without rank has [avg_rank: null], which
    is [None] here, and [keywords] is an array.  In a comparison [null]
    counts as [0], and so it does in [Math.round(avgRank * 10) / 10]. *)
Definition recommend (latest : Scan) : list Advice :=
  let avgRank := avg_rank latest in
  let recommendations := [] in
  let recommendations :=
    if gtb (num avgRank) 10 then
      recommendations ++
      [ {| advice_action := "Use SuperBoost";
           advice_product := "SuperBoost";
           advice_reason :=
             Some ("Average rank is " ++ show_round1 (num avgRank)
                   ++ ". SuperBoost uses AI-powered GBP optimization.")%string
        |} ]
    else recommendations in
  let recommendations :=
    if gtb (num avgRank) 5 && leb (num avgRank) 10 then
      recommendations ++
      [ {| advice_action := "Use LocalBoost";
           advice_product := "LocalBoost";
           advice_reason :=
             Some ("Average rank is " ++ show_round1 (num avgRank)
                   ++ ". LocalBoost builds citations and backlinks.")%string
        |} ]
    else recommendations in
  let recommendations :=
    if (length (keywords latest) <? 5)%nat then
      recommendations ++
      [ {| advice_action := "Track more keywords";
           advice_product := "Rank Tracker";
           advice_reason :=
             Some ("Only tracking "
                   ++ show_nat (Z.of_nat (length (keywords latest)))
                   ++ " keywords.")%string |} ]
    else recommendations in
  if leb (num avgRank) 5 && (length recommendations =? 0)%nat then
    recommendations ++
    [ {| advice_action := "Maintain with LocalBoost";
         advice_product := "LocalBoost";
         advice_reason :=
           Some ("Great rankings (avg " ++ show_round1 (num avgRank)
                 ++ ")! Maintain authority.")%string |} ]
  else recommendations.

Definition recommendations_get (toLowerCase : string -> string)
  (businessName : string) (results : list Scan) : advice_output :=
  if String.eqb businessName EmptyString then
    AdviceUsage ("Usage: localrank recommendations:get --business " ++ dquote
                 ++ "Business Name" ++ dquote)%string
  else
    let searchTerm := toLowerCase businessName in
    let clientScans := filter (name_matches toLowerCase searchTerm) results in
    match clientScans with
    | [] =>
        AdviceNoData ("No data found for '" ++ businessName ++ "'")%string
          [ {| advice_action := "Run first scan";
               advice_product := "Rank Tracker";
               advice_reason := None |} ]
    | latest :: _ =>
        AdviceFor (option_map name (business latest))
          (if truthy (avg_rank latest)
           then Some (round1 (num (avg_rank latest))) else None)
          (recommend latest)
    end.

(** ** [email:draft]: the sentence on the change *)

(** The sentence on the change since the previous scan; empty when
    there is nothing to compare. *)
Definition email_change (clientScans : list Scan) (avgRank : option Q)
  : string :=
  if (2 <=? length clientScans)%nat then
    let prev := second_rank clientScans in
    if truthy avgRank && truthy prev then
      let diff := (num prev - num avgRank)%Q in
      if gtb diff 0 then
        ("Rankings improved by " ++ show_round1 diff ++ " positions!")%string
      else if ltb diff 0 then
        ("Rankings dropped by " ++ show_round1 (Math_abs diff)
         ++ " positions - we're working on recovery.")%string
      else EmptyString
    else EmptyString
  else EmptyString.

(** [if (s)] on a string: the empty string is falsy. *)
Definition truthy_text (s : string) : bool :=
  negb (String.eqb s EmptyString).

(** ** The command line: [parseArgs] *)

(** The value of an option: [true] for a bare flag, else the next
    argument. *)
Inductive flag_value : Type :=
| FlagTrue
| FlagText (s : string).

(** The object [args]: the positional arguments [args._] and the
    options, whose names start with two dashes (so that none of them is
    the name [_] or an inherited one). *)
Record Args : Type := {
  positional : list string;
  flags : object flag_value
}.

Definition starts_with_dashes (arg : string) : bool := String.prefix "--" arg.

(** The loop of [parseArgs] from the argument [arg] on; an option takes
    the next argument as its value when there is one, it is not empty
    and it is not an option itself. *)
Fixpoint parse_from (argv : list string) (args : Args) : Args :=
  match argv with
  | [] => args
  | arg :: rest =>
      if starts_with_dashes arg then
        match rest with
        | next :: rest' =>
            if truthy_text next && negb (starts_with_dashes next) then
              parse_from rest'
                {| positional := positional args;
                   flags := set arg (FlagText next) (flags args) |}
            else
              parse_from rest
                {| positional := positional args;
                   flags := set arg FlagTrue (flags args) |}
        | [] =>
            parse_from rest
              {| positional := positional args;
                 flags := set arg FlagTrue (flags args) |}
        end
      else
        parse_from rest
          {| positional := positional args ++ [arg];
             flags := flags args |}
  end.

Definition parseArgs (argv : list string) : Args :=
  parse_from argv {| positional := []; flags := [] |}.

(** [args['--business'] || args._[0]] *)
Inductive arg_value : Type :=
| ArgUndefined
| ArgTrue
| ArgText (s : string).

Definition business_arg (args : Args) : arg_value :=
  match own "--business" (flags args) with
  | Some FlagTrue => ArgTrue
  | Some (FlagText s) =>
      if truthy_text s then ArgText s
      else match positional args with
           | first :: _ => ArgText first
           | [] => ArgUndefined
           end
  | None =>
      match positional args with
      | first :: _ => ArgText first
      | [] => ArgUndefined
      end
  end.

(** [client:report] from the command line: a business name that is the
    boolean [true] passes the test [!businessName] and has no method
    [toLowerCase]. *)
Definition client_report_cli (api : string -> Scan)
  (toLowerCase : string -> string) (argv : list string)
  (results : list Scan) : result output :=
  match business_arg (parseArgs argv) with
  | ArgUndefined => Ok (client_report api toLowerCase EmptyString results)
  | ArgTrue => Throw "businessName.toLowerCase is not a function"
  | ArgText s => Ok (client_report api toLowerCase s results)
  end.

(** ** More sample data *)

(** The recommendations for Dent (average rank 18, no keyword in the
    listing). *)
Definition dent_advice : list Advice :=
  [ {| advice_action := "Use SuperBoost";
       advice_product := "SuperBoost";
       advice_reason :=
         Some "Average rank is 18. SuperBoost uses AI-powered GBP optimization."
    |};
    {| advice_action := "Track more keywords";
       advice_product := "Rank Tracker";
       advice_reason := Some "Only tracking 0 keywords." |} ].

(** A scan without rank that tracks five keywords. *)
Definition unranked : Scan :=
  {| uuid := "s20";
     business := Some {| name := "Glow"; place_id := "place" |};
     avg_rank := None;
     created_at := "2026-02-08T09:00:00Z";
     keywords := ["a"; "b"; "c"; "d"; "e"];
     public_share_token := None;
     keyword_results := [] |}.

(** * Properties *)

(** ** The stable sort *)

Section SortFacts.
Variable A : Type.
Variable gt : A -> A -> bool.

Lemma insert_perm (x : A) (l : list A) : Permutation (insert gt x l) (x :: l).
Proof.
  induction l as [|y l IH]; simpl.
  - apply Permutation_refl.
  - destruct (gt x y).
    + apply Permutation_trans with (y :: x :: l).
      * now apply perm_skip.
      * apply perm_swap.
    + apply Permutation_refl.
Qed.

Lemma sort_perm (l : list A) : Permutation (sort gt l) l.
Proof.
  induction l as [|x l IH]; simpl.
  - constructor.
  - apply Permutation_trans with (x :: sort gt l).
    + apply insert_perm.
    + now apply perm_skip.
Qed.

Lemma sort_In (l : list A) (x : A) : In x (sort gt l) <-> In x l.
Proof.
  split; apply Permutation_in; [|apply Permutation_sym]; apply sort_perm.
Qed.

(** The result is ordered, for a comparator that decides a total
    preorder [le]. *)
Section Ordered.
Variable le : A -> A -> Prop.
Hypothesis le_trans : forall a b c, le a b -> le b c -> le a c.
Hypothesis gt_false : forall a b, gt a b = false -> le a b.
Hypothesis gt_true : forall a b, gt a b = true -> le b a.


End Ordered.

(** Stability: the elements of a class that the comparator does not
    tell apart keep their relative order. *)
Section Stable.
Variable P : A -> bool.
Hypothesis same_class : forall a b, P a = true -> P b = true -> gt a b = false.

Lemma insert_filter (x : A) (l : list A) :
  filter P (insert gt x l) = filter P (x :: l).
Proof.
  induction l as [|y l IH]; simpl; [reflexivity|].
  destruct (gt x y) eqn:E; [|reflexivity].
  simpl. rewrite IH. simpl.
  destruct (P x) eqn:Px, (P y) eqn:Py; try reflexivity.
  rewrite (same_class _ _ Px Py) in E. discriminate.
Qed.

Lemma sort_stable (l : list A) : filter P (sort gt l) = filter P l.
Proof.
  induction l as [|x l IH]; simpl; [reflexivity|].
  rewrite insert_filter. simpl. now rewrite IH.
Qed.
End Stable.
End SortFacts.

(** Sorting commutes with a map that the comparator does not see. *)
Lemma sort_map (A B : Type) (gtA : A -> A -> bool) (gtB : B -> B -> bool)
  (h : A -> B) (l : list A) :
  (forall a b, gtB (h a) (h b) = gtA a b) ->
  sort gtB (map h l) = map h (sort gtA l).
Proof.
  intros Hh. induction l as [|x l IH]; simpl; [reflexivity|].
  rewrite IH. clear IH. generalize (sort gtA l) as s.
  induction s as [|y s IHs]; simpl; [reflexivity|].
  rewrite Hh. destruct (gtA x y); simpl; [now rewrite IHs | reflexivity].
Qed.

(** ** Objects *)

Section ObjectFacts.
Variable V : Type.

Lemma own_set (k k' : string) (v : V) (o : object V) :
  own k (set k' v o) = if String.eqb k k' then Some v else own k o.
Proof.
  induction o as [|[k0 v0] o IH]; simpl.
  - reflexivity.
  - destruct (String.eqb k' k0) eqn:E0; simpl.
    + apply String.eqb_eq in E0. subst k0.
      now destruct (String.eqb k k').
    + rewrite IH. destruct (String.eqb k k0) eqn:E1; [|reflexivity].
      apply String.eqb_eq in E1. subst k0.
      now rewrite String.eqb_sym, E0.
Qed.

Lemma own_In (k : string) (v : V) (o : object V) :
  own k o = Some v -> In (k, v) o.
Proof.
  induction o as [|[k0 v0] o IH]; simpl; [discriminate|].
  destruct (String.eqb k k0) eqn:E.
  - apply String.eqb_eq in E. intros [= ->]. left. now subst.
  - intros H. right. now apply IH.
Qed.

Lemma In_own (k : string) (v : V) (o : object V) :
  NoDup (map fst o) -> In (k, v) o -> own k o = Some v.
Proof.
  induction o as [|[k0 v0] o IH]; simpl; [easy|].
  intros Hnd [H|H].
  - injection H as -> ->. now rewrite String.eqb_refl.
  - inversion Hnd as [|? ? Hnot Hnd']; subst.
    destruct (String.eqb k k0) eqn:E.
    + apply String.eqb_eq in E. subst k0. exfalso. apply Hnot.
      change k with (fst (k, v)). now apply in_map.
    + now apply IH.
Qed.

Lemma own_None (k : string) (o : object V) :
  own k o = None <-> ~ In k (map fst o).
Proof.
  induction o as [|[k0 v0] o IH]; simpl.
  - tauto.
  - destruct (String.eqb k k0) eqn:E.
    + apply String.eqb_eq in E. subst. split; [discriminate|tauto].
    + apply String.eqb_neq in E. rewrite IH. split.
      * intros H [H1|H1]; [now subst | tauto].
      * tauto.
Qed.

(** The names after an assignment: the same, or one more at the end. *)
Lemma keys_set (k : string) (v : V) (o : object V) :
  map fst (set k v o) =
  match own k o with
  | Some _ => map fst o
  | None => map fst o ++ [k]
  end.
Proof.
  induction o as [|[k0 v0] o IH]; simpl; [reflexivity|].
  destruct (String.eqb k k0) eqn:E; simpl; [reflexivity|].
  rewrite IH. now destruct (own k o).
Qed.

Lemma NoDup_set (k : string) (v : V) (o : object V) :
  NoDup (map fst o) -> NoDup (map fst (set k v o)).
Proof.
  intros H. rewrite keys_set. destruct (own k o) eqn:E; [exact H|].
  apply own_None in E.
  apply (Permutation_NoDup (l := k :: map fst o)).
  - apply Permutation_cons_append.
  - now constructor.
Qed.
End ObjectFacts.

Lemma set_set (V : Type) (k : string) (v v' : V) (o : object V) :
  set k v (set k v' o) = set k v o.
Proof.
  induction o as [|[k0 v0] o IH]; simpl.
  - now rewrite String.eqb_refl.
  - destruct (String.eqb k k0) eqn:E; simpl; rewrite E; [reflexivity|].
    now rewrite IH.
Qed.

(** [Object.entries] lists every own property once. *)
Lemma entries_perm (V : Type) (o : object V) : Permutation (Object_entries o) o.
Proof.
  unfold Object_entries.
  apply Permutation_trans with
    (filter (fun e => is_index (fst e)) o
     ++ filter (fun e => negb (is_index (fst e))) o).
  - apply Permutation_app_tail, sort_perm.
  - induction o as [|e o IH]; simpl; [constructor|].
    destruct (is_index (fst e)); simpl.
    + now apply perm_skip.
    + apply Permutation_sym, Permutation_cons_app, Permutation_sym, IH.
Qed.

Lemma entries_In (V : Type) (o : object V) (e : string * V) :
  In e (Object_entries o) <-> In e o.
Proof.
  split; apply Permutation_in; [|apply Permutation_sym]; apply entries_perm.
Qed.


(** ** Grouping *)

Lemma group_body_eq (byBusiness : object (list Scan)) (scan : Scan) :
  group_body byBusiness scan =
  match own (business_name_of scan) byBusiness with
  | Some scans => Ok (set (business_name_of scan) (scans ++ [scan]) byBusiness)
  | None =>
      if inherited (business_name_of scan)
      then Throw "byBusiness[name].push is not a function"
      else Ok (set (business_name_of scan) [scan] byBusiness)
  end.
Proof.
  unfold group_body.
  destruct (own (business_name_of scan) byBusiness) eqn:E.
  - now rewrite E.
  - destruct (inherited (business_name_of scan)).
    + now rewrite E.
    + rewrite own_set, String.eqb_refl, set_set. reflexivity.
Qed.

Lemma group_body_own (g g' : object (list Scan)) (scan : Scan) (k : string) :
  group_body g scan = Ok g' ->
  own k g' = grouped (own k g) (filter (name_is k) [scan]).
Proof.
  rewrite group_body_eq. simpl. unfold name_is.
  destruct (own (business_name_of scan) g) eqn:E.
  - intros [= <-]. rewrite own_set, (String.eqb_sym k).
    destruct (String.eqb (business_name_of scan) k) eqn:Ek.
    + apply String.eqb_eq in Ek. subst k. now rewrite E.
    + destruct (own k g); simpl; [now rewrite app_nil_r | reflexivity].
  - destruct (inherited (business_name_of scan)); [discriminate|].
    intros [= <-]. rewrite own_set, (String.eqb_sym k).
    destruct (String.eqb (business_name_of scan) k) eqn:Ek.
    + apply String.eqb_eq in Ek. subst k. now rewrite E.
    + destruct (own k g); simpl; [now rewrite app_nil_r | reflexivity].
Qed.

Lemma grouped_app (o : option (list Scan)) (l1 l2 : list Scan) :
  grouped (grouped o l1) l2 = grouped o (l1 ++ l2).
Proof.
  destruct o as [l|]; simpl.
  - now rewrite app_assoc.
  - destruct l1; simpl; [reflexivity|].
    reflexivity.
Qed.

Lemma forEach_group_own (xs : list Scan) (g g' : object (list Scan))
  (k : string) :
  forEach group_body xs g = Ok g' ->
  own k g' = grouped (own k g) (filter (name_is k) xs).
Proof.
  revert g. induction xs as [|x xs IH]; simpl; intros g.
  - intros [= <-]. destruct (own k g); simpl; [now rewrite app_nil_r|reflexivity].
  - destruct (group_body g x) as [g1|] eqn:E; simpl; [|discriminate].
    intros H. rewrite (IH _ H), (group_body_own _ _ _ k E), grouped_app.
    simpl. now destruct (name_is k x).
Qed.

Lemma group_body_NoDup (g g' : object (list Scan)) (scan : Scan) :
  group_body g scan = Ok g' -> NoDup (map fst g) -> NoDup (map fst g').
Proof.
  rewrite group_body_eq.
  destruct (own (business_name_of scan) g).
  - intros [= <-]. apply NoDup_set.
  - destruct (inherited (business_name_of scan)); [discriminate|].
    intros [= <-]. apply NoDup_set.
Qed.

Lemma forEach_group_NoDup (xs : list Scan) (g g' : object (list Scan)) :
  forEach group_body xs g = Ok g' -> NoDup (map fst g) -> NoDup (map fst g').
Proof.
  revert g. induction xs as [|x xs IH]; simpl; intros g.
  - now intros [= <-].
  - destruct (group_body g x) as [g1|] eqn:E; simpl; [|discriminate].
    intros H Hnd. apply (IH _ H). now apply (group_body_NoDup _ _ _ E).
Qed.

Lemma own_existsb (V : Type) (k : string) (o : object V) :
  existsb (String.eqb k) (map fst o)
  = match own k o with Some _ => true | None => false end.
Proof.
  induction o as [|[k0 v0] o IH]; simpl; [reflexivity|].
  now destruct (String.eqb k k0).
Qed.

Lemma forEach_group_keys (xs : list Scan) (g g' : object (list Scan)) :
  forEach group_body xs g = Ok g' ->
  map fst g' = add_names (map fst g) (map business_name_of xs).
Proof.
  revert g. induction xs as [|x xs IH]; simpl; intros g.
  - now intros [= <-].
  - destruct (group_body g x) as [g1|] eqn:E; simpl; [|discriminate].
    intros H. rewrite (IH _ H). f_equal.
    rewrite own_existsb. rewrite group_body_eq in E.
    destruct (own (business_name_of x) g) eqn:O.
    + injection E as <-. now rewrite keys_set, O.
    + destruct (inherited (business_name_of x)); [discriminate|].
      injection E as <-. now rewrite keys_set, O.
Qed.

(** The groups are created in the order in which the businesses first
    occur in the listing. *)
Lemma group_scans_keys (results : list Scan) (g : object (list Scan)) :
  group_scans results = Ok g ->
  map fst g = first_seen (map business_name_of results).
Proof. apply (forEach_group_keys results []). Qed.

(** The groups of a scan list: every business that occurs, with its
    scans in the order of the list. *)
Lemma group_scans_In (results : list Scan) (g : object (list Scan))
  (k : string) (scans : list Scan) :
  group_scans results = Ok g ->
  In (k, scans) g <-> scans = filter (name_is k) results /\ scans <> [].
Proof.
  unfold group_scans. intros H.
  pose proof (forEach_group_own _ _ _ k H) as Hown. simpl in Hown.
  pose proof (forEach_group_NoDup _ _ _ H (NoDup_nil _)) as Hnd.
  split.
  - intros Hin. rewrite (In_own _ _ _ _ Hnd Hin) in Hown.
    destruct (filter (name_is k) results); [discriminate|].
    injection Hown as ->. split; [reflexivity | discriminate].
  - intros [-> Hne]. apply own_In. rewrite Hown.
    destruct (filter (name_is k) results); [contradiction | reflexivity].
Qed.

Lemma group_scans_nonempty (results : list Scan) (g : object (list Scan)) :
  group_scans results = Ok g -> Forall (fun e => snd e <> []) g.
Proof.
  intros H. apply Forall_forall. intros [k scans] Hin.
  apply (group_scans_In _ _ k scans H) in Hin. simpl. tauto.
Qed.

Lemma group_body_keys (g g' : object (list Scan)) (scan : Scan) :
  group_body g scan = Ok g' ->
  Forall (fun k => inherited k = false) (map fst g) ->
  inherited (business_name_of scan) = false /\
  Forall (fun k => inherited k = false) (map fst g').
Proof.
  rewrite group_body_eq. intros H Hg.
  destruct (own (business_name_of scan) g) as [l|] eqn:E.
  - injection H as <-. rewrite keys_set, E. split; [|exact Hg].
    apply own_In in E. rewrite Forall_forall in Hg. apply Hg.
    change (business_name_of scan) with (fst (business_name_of scan, l)).
    now apply in_map.
  - destruct (inherited (business_name_of scan)) eqn:I; [discriminate|].
    injection H as <-. rewrite keys_set, E. split; [reflexivity|].
    apply Forall_app. split; [exact Hg|]. now constructor.
Qed.

Lemma forEach_group_groupable (xs : list Scan) (g : object (list Scan)) :
  Forall (fun k => inherited k = false) (map fst g) ->
  (exists g', forEach group_body xs g = Ok g') <-> groupable xs = true.
Proof.
  revert g. induction xs as [|x xs IH]; simpl; intros g Hg.
  - split; [reflexivity | now exists g].
  - destruct (group_body g x) as [g1|msg] eqn:E; simpl.
    + destruct (group_body_keys _ _ _ E Hg) as [Hx Hg1].
      rewrite Hx. simpl. now apply IH.
    + split; [intros [g' H]; discriminate|].
      intros H. apply andb_prop in H. destruct H as [Hx _].
      rewrite group_body_eq in E.
      destruct (own (business_name_of x) g); [discriminate|].
      destruct (inherited (business_name_of x)); discriminate.
Qed.

Lemma group_scans_groupable (results : list Scan) :
  (exists g, group_scans results = Ok g) <-> groupable results = true.
Proof. apply forEach_group_groupable. constructor. Qed.

Lemma flatten_set_Some (g : object (list Scan)) (k : string)
  (l : list Scan) (scan : Scan) :
  own k g = Some l ->
  Permutation (flatten (set k (l ++ [scan]) g)) (flatten g ++ [scan]).
Proof.
  unfold flatten. induction g as [|[k0 l0] g IH]; simpl; [discriminate|].
  destruct (String.eqb k k0); simpl.
  - intros [= ->]. rewrite <- !app_assoc.
    apply Permutation_app_head, Permutation_app_comm.
  - intros H. rewrite <- app_assoc. now apply Permutation_app_head, IH.
Qed.

Lemma flatten_set_None (g : object (list Scan)) (k : string) (scan : Scan) :
  own k g = None -> flatten (set k [scan] g) = flatten g ++ [scan].
Proof.
  unfold flatten. induction g as [|[k0 l0] g IH]; simpl; [reflexivity|].
  destruct (String.eqb k k0); simpl; [discriminate|].
  intros H. now rewrite IH, app_assoc.
Qed.

Lemma forEach_group_flatten (xs : list Scan) (g g' : object (list Scan)) :
  forEach group_body xs g = Ok g' ->
  Permutation (flatten g') (flatten g ++ xs).
Proof.
  revert g. induction xs as [|x xs IH]; simpl; intros g.
  - intros [= <-]. now rewrite app_nil_r.
  - destruct (group_body g x) as [g1|] eqn:E; simpl; [|discriminate].
    intros H. apply Permutation_trans with (flatten g1 ++ xs); [now apply IH|].
    change (x :: xs) with ([x] ++ xs). rewrite app_assoc.
    apply Permutation_app_tail.
    rewrite group_body_eq in E.
    destruct (own (business_name_of x) g) eqn:O.
    + injection E as <-. now apply flatten_set_Some.
    + destruct (inherited (business_name_of x)); [discriminate|].
      injection E as <-. now rewrite flatten_set_None.
Qed.

(** Where grouping succeeds it loses and repeats no record. *)
Lemma group_scans_flatten (results : list Scan) (g : object (list Scan)) :
  group_scans results = Ok g -> Permutation (flatten g) results.
Proof. intros H. apply (forEach_group_flatten _ _ _ H). Qed.

(** ** The loops over the businesses as maps *)

Lemma forEach_at_risk (entries : list (string * list Scan))
  (atRisk : list AtRisk) :
  Forall (fun e => snd e <> []) entries ->
  forEach at_risk_body entries atRisk
  = Ok (atRisk ++ flat_map risk_entry entries).
Proof.
  intros H. revert atRisk.
  induction H as [|[k scans] entries Hne _ IH]; simpl; intros atRisk.
  - now rewrite app_nil_r.
  - unfold risk_entry at 1. simpl in *.
    destruct scans as [|latest rest]; [contradiction|].
    destruct (risk_of (latest :: rest) latest) as [factors score]. simpl.
    destruct (score >? 0); simpl; rewrite IH.
    + now rewrite <- app_assoc.
    + reflexivity.
Qed.

Lemma entries_nonempty (results : list Scan) (g : object (list Scan)) :
  group_scans results = Ok g ->
  Forall (fun e => snd e <> []) (Object_entries g).
Proof.
  intros H. apply Forall_forall. intros e He.
  apply (proj1 (entries_In _ _ _)) in He.
  pose proof (group_scans_nonempty _ _ H) as Hn.
  rewrite Forall_forall in Hn. now apply Hn.
Qed.

(** [at-risk:clients] in one equation. *)
Lemma at_risk_clients_eq (results : list Scan) (g : object (list Scan)) :
  group_scans results = Ok g ->
  at_risk_clients results
  = Ok (sort by_risk (flat_map risk_entry (Object_entries g))).
Proof.
  intros H. unfold at_risk_clients. rewrite H. simpl.
  now rewrite (forEach_at_risk _ _ (entries_nonempty _ _ H)).
Qed.

(** [at-risk:clients] prints a list exactly when the scans can be
    grouped. *)
Lemma at_risk_clients_total (results : list Scan) :
  (exists out, at_risk_clients results = Ok out) <-> groupable results = true.
Proof.
  rewrite <- group_scans_groupable. split.
  - intros [out H]. unfold at_risk_clients in H.
    destruct (group_scans results) as [g|msg]; [now exists g | discriminate].
  - intros [g G]. rewrite (at_risk_clients_eq _ _ G). now eexists.
Qed.

(** ** C1: the order inside a group *)

Lemma hd_error_filter (A : Type) (f : A -> bool) (l : list A) :
  hd_error (filter f l) = find f l.
Proof.
  induction l as [|x l IH]; simpl; [reflexivity|].
  now destruct (f x).
Qed.

Lemma newest_first_filter (f : Scan -> bool) (scans : list Scan) :
  newest_first scans = true -> newest_first (filter f scans) = true.
Proof.
  induction scans as [|a rest IH]; simpl; [reflexivity|].
  intros H. apply andb_prop in H. destruct H as [Ha Hrest].
  destruct (f a); simpl; [|now apply IH].
  rewrite (IH Hrest), andb_true_r.
  apply forallb_forall. intros b Hb. apply filter_In in Hb.
  rewrite forallb_forall in Ha. now apply Ha.
Qed.

(** C1, as the code has it: grouping performs no sort.  The scans of a
    business are those of the upstream list, in the order of that list;
    the scan taken as latest is the first one of the business in the
    list, and a group is newest-first when the upstream list is. *)
Theorem group_scans_keeps_upstream_order
  (results : list Scan) (g : object (list Scan))
  (k : string) (scans : list Scan) :
  group_scans results = Ok g ->
  In (k, scans) (Object_entries g) ->
  scans = filter (name_is k) results
  /\ hd_error scans = find (name_is k) results
  /\ (newest_first results = true -> newest_first scans = true).
Proof.
  intros H Hin. apply (proj1 (entries_In _ _ _)) in Hin.
  apply (group_scans_In _ _ k scans H) in Hin. destruct Hin as [-> _].
  split; [reflexivity|]. split.
  - apply hd_error_filter.
  - apply newest_first_filter.
Qed.

Lemma group_scans_keeps_upstream_order_witness :
  group_scans [Sample.acme_jan; Sample.bolt_new; Sample.acme_feb]
  = Ok [("Acme", [Sample.acme_jan; Sample.acme_feb]);
        ("Bolt", [Sample.bolt_new])]
  /\ In ("Acme", [Sample.acme_jan; Sample.acme_feb])
        (Object_entries [("Acme", [Sample.acme_jan; Sample.acme_feb]);
                         ("Bolt", [Sample.bolt_new])])
  /\ [Sample.acme_jan; Sample.acme_feb]
     = filter (name_is "Acme")
         [Sample.acme_jan; Sample.bolt_new; Sample.acme_feb]
  /\ hd_error [Sample.acme_jan; Sample.acme_feb]
     = find (name_is "Acme") [Sample.acme_jan; Sample.bolt_new; Sample.acme_feb].
Proof.
  assert (H1 : group_scans [Sample.acme_jan; Sample.bolt_new; Sample.acme_feb]
               = Ok [("Acme", [Sample.acme_jan; Sample.acme_feb]);
                     ("Bolt", [Sample.bolt_new])]) by reflexivity.
  assert (H2 : In ("Acme", [Sample.acme_jan; Sample.acme_feb])
                 (Object_entries [("Acme", [Sample.acme_jan; Sample.acme_feb]);
                                  ("Bolt", [Sample.bolt_new])]))
    by (left; reflexivity).
  split; [exact H1|]. split; [exact H2|].
  destruct (group_scans_keeps_upstream_order _ _ _ _ H1 H2) as [Ha [Hb _]].
  split; [exact Ha | exact Hb].
Defined.

(** C1, as stated, fails: with Acme's January scan listed before its
    February scan, the group keeps that order, so that the scan taken
    as latest is the older one; the summary reports Acme, whose rank
    went from 8.5 to 4.2, as declining. *)
Lemma group_scans_not_newest_first :
  group_scans [Sample.acme_jan; Sample.acme_feb]
  = Ok [("Acme", [Sample.acme_jan; Sample.acme_feb])]
  /\ newest_first [Sample.acme_jan; Sample.acme_feb] = false
  /\ String.ltb (created_at Sample.acme_jan) (created_at Sample.acme_feb) = true
  /\ statuses (portfolio_summary [Sample.acme_jan; Sample.acme_feb])
     = [("Acme", Declining)].
Proof. repeat split. Qed.

(** ** C8: grouping and flattening *)

(** C8 at a business named [constructor]: the read
    [byBusiness["constructor"]] finds the inherited function, the group
    is never created and [push] raises; the commands built on the
    grouping print an error and no record comes out. *)
Theorem group_scans_inherited_name_raises :
  group_scans [Sample.cafe; Sample.constructor_scan]
  = Throw "byBusiness[name].push is not a function"
  /\ portfolio_summary [Sample.cafe; Sample.constructor_scan]
     = Throw "byBusiness[name].push is not a function"
  /\ at_risk_clients [Sample.cafe; Sample.constructor_scan]
     = Throw "byBusiness[name].push is not a function".
Proof. repeat split. Qed.

(** ** C9 and C2: the risk score *)

Lemma risk_entry_In (e : AtRisk) (entry : string * list Scan) :
  In e (risk_entry entry) ->
  business_name e = fst entry /\ risk_score e = score_of (snd entry)
  /\ 0 < risk_score e.
Proof.
  unfold risk_entry, score_of. destruct (snd entry) as [|latest rest]; [easy|].
  destruct (snd (risk_of (latest :: rest) latest) >? 0) eqn:E; [|easy].
  intros [<-|[]]. simpl. repeat split. lia.
Qed.

Lemma risk_entry_positive (entry : string * list Scan) :
  0 < score_of (snd entry) -> exists e, risk_entry entry = [e]
                                        /\ business_name e = fst entry.
Proof.
  unfold risk_entry, score_of. destruct (snd entry) as [|latest rest]; [lia|].
  intros H. apply Z.gtb_lt in H. rewrite H. eexists. split; reflexivity.
Qed.

(** What [at-risk:clients] prints comes from a group of the listing. *)
Lemma at_risk_clients_In (results : list Scan) (out : list AtRisk) :
  at_risk_clients results = Ok out ->
  exists g, group_scans results = Ok g
    /\ out = sort by_risk (flat_map risk_entry (Object_entries g))
    /\ forall e, In e out ->
         exists scans, In (business_name e, scans) (Object_entries g)
           /\ risk_score e = score_of scans /\ 0 < risk_score e.
Proof.
  intros H. destruct (group_scans results) as [g|msg] eqn:G.
  - exists g. rewrite (at_risk_clients_eq _ _ G) in H. injection H as <-.
    split; [reflexivity|]. split; [reflexivity|].
    intros e He. apply sort_In, in_flat_map in He.
    destruct He as [[k scans] [Hin He]].
    apply risk_entry_In in He. simpl in He. destruct He as [-> [Hs Hp]].
    now exists scans.
  - unfold at_risk_clients in H. rewrite G in H. discriminate.
Qed.

Lemma score_of_values (scans : list Scan) :
  In (score_of scans) [0; 1; 2; 3; 5].
Proof.
  unfold score_of. destruct scans as [|latest rest]; [simpl; tauto|].
  unfold risk_of, rule_single, rule_poor, rule_dropped.
  destruct rest as [|previous rest]; simpl length.
  - simpl.
    destruct (truthy (avg_rank latest) && gtb (num (avg_rank latest)) 15);
      simpl; tauto.
  - change (2 <=? S (S (length rest)))%nat with true.
    change (S (S (length rest)) =? 1)%nat with false. cbv iota.
    destruct (truthy (avg_rank latest)
              && truthy (second_rank (latest :: previous :: rest))
              && gtb (num (avg_rank latest)
                      - num (second_rank (latest :: previous :: rest))) 2);
    destruct (truthy (avg_rank latest) && gtb (num (avg_rank latest)) 15);
      simpl; tauto.
Qed.

(** C9: a score that [at-risk:clients] prints is 1, 2, 3 or 5; the drop
    rule needs two scans and the low-engagement rule exactly one, so
    that 4 and 6 never come out. *)
Theorem at_risk_score_values (results : list Scan) (out : list AtRisk)
  (e : AtRisk) :
  at_risk_clients results = Ok out ->
  In e out ->
  In (risk_score e) [1; 2; 3; 5].
Proof.
  intros H He. destruct (at_risk_clients_In _ _ H) as [g [_ [_ Hall]]].
  destruct (Hall e He) as [scans [_ [Hs Hp]]].
  pose proof (score_of_values scans) as Hv. rewrite <- Hs in Hv.
  simpl in Hv |- *. lia.
Qed.

Lemma at_risk_score_values_witness :
  at_risk_clients Sample.portfolio
  = Ok [ {| business_name := "Dent"; risk_score := 5;
            risk_factors := ["Rankings dropped from 12 to 18";
                             "Poor visibility (avg rank 18)"];
            action := "Reach out proactively" |};
         {| business_name := "Bolt"; risk_score := 2;
            risk_factors := ["Poor visibility (avg rank 16)"];
            action := "Reach out proactively" |};
         {| business_name := "Cafe"; risk_score := 1;
            risk_factors := ["Only 1 scan - low engagement"];
            action := "Reach out proactively" |} ]
  /\ In 5 [1; 2; 3; 5].
Proof.
  assert (H : at_risk_clients Sample.portfolio
    = Ok [ {| business_name := "Dent"; risk_score := 5;
              risk_factors := ["Rankings dropped from 12 to 18";
                               "Poor visibility (avg rank 18)"];
              action := "Reach out proactively" |};
           {| business_name := "Bolt"; risk_score := 2;
              risk_factors := ["Poor visibility (avg rank 16)"];
              action := "Reach out proactively" |};
           {| business_name := "Cafe"; risk_score := 1;
              risk_factors := ["Only 1 scan - low engagement"];
              action := "Reach out proactively" |} ]) by reflexivity.
  split; [exact H|].
  exact (at_risk_score_values _ _ _ H (or_introl eq_refl)).
Defined.

Lemma truthy_zero_as_null (x : option Q) : truthy (zero_as_null x) = truthy x.
Proof. unfold zero_as_null. now destruct (truthy x) eqn:E. Qed.






(** ** C6: which businesses are listed, and in which order *)






(** ** C3 and C4: the clients of the portfolio summary *)

Lemma forEach_portfolio_clients (entries : list (string * list Scan))
  (p : Portfolio) :
  Forall (fun e => snd e <> []) entries ->
  exists p', forEach portfolio_body entries p = Ok p'
    /\ clients (summary p') = clients (summary p) ++ flat_map client_of entries.
Proof.
  intros H. revert p.
  induction H as [|[k scans] entries Hne _ IH]; simpl; intros p.
  - exists p. now rewrite app_nil_r.
  - unfold client_of at 1. simpl in *.
    destruct scans as [|latest rest]; [contradiction|].
    destruct (classify (latest :: rest) (avg_rank latest)) as [st chg].
    simpl.
    match goal with
    | |- exists p', forEach _ _ ?q = _ /\ _ =>
        destruct (IH q) as [p' [Hp' Hc]]
    end.
    exists p'. split; [exact Hp'|].
    rewrite Hc. simpl. now rewrite <- app_assoc.
Qed.

Lemma portfolio_summary_clients (results : list Scan) (s : Summary) :
  portfolio_summary results = Ok s ->
  exists g, group_scans results = Ok g
    /\ clients s = sort by_status (flat_map client_of (Object_entries g)).
Proof.
  unfold portfolio_summary. intros H.
  destruct (group_scans results) as [g|msg] eqn:G; [|discriminate].
  exists g. split; [reflexivity|]. simpl in H.
  match type of H with
  | bind (forEach _ _ ?q) _ = _ =>
      destruct (forEach_portfolio_clients _ q (entries_nonempty _ _ G))
        as [p' [Hp' Hc]]
  end.
  rewrite Hp' in H. simpl in H. injection H as <-. simpl.
  now rewrite Hc.
Qed.

(** [portfolio:summary] prints a summary exactly when the scans can be
    grouped. *)
Lemma portfolio_summary_total (results : list Scan) :
  (exists s, portfolio_summary results = Ok s) <-> groupable results = true.
Proof.
  rewrite <- group_scans_groupable. split.
  - intros [s H]. unfold portfolio_summary in H.
    destruct (group_scans results) as [g|msg]; [now exists g | discriminate].
  - intros [g G]. unfold portfolio_summary. rewrite G. simpl.
    match goal with
    | |- exists s, bind (forEach _ _ ?q) _ = _ =>
        destruct (forEach_portfolio_clients _ q (entries_nonempty _ _ G))
          as [p' [Hp' _]]
    end.
    rewrite Hp'. simpl. now eexists.
Qed.

(** A client of the summary comes from a group of the listing. *)
Lemma portfolio_summary_In (results : list Scan) (s : Summary) (c : Client) :
  portfolio_summary results = Ok s ->
  In c (clients s) ->
  exists g latest rest,
    group_scans results = Ok g
    /\ In (client_name c, latest :: rest) g
    /\ client_of (client_name c, latest :: rest) = [c].
Proof.
  intros H Hc. destruct (portfolio_summary_clients _ _ H) as [g [G E]].
  rewrite E in Hc. apply sort_In, in_flat_map in Hc.
  destruct Hc as [[k scans] [Hin Hc]].
  apply (proj1 (entries_In _ _ _)) in Hin.
  unfold client_of in Hc. simpl in Hc.
  destruct scans as [|latest rest]; [easy|].
  destruct Hc as [<-|[]]. simpl.
  exists g, latest, rest. repeat split; assumption.
Qed.





Lemma truthy_str_Some (tok : option string) :
  truthy_str tok = true -> exists t, tok = Some t /\ t <> EmptyString.
Proof.
  destruct tok as [[|c t]|]; simpl; try discriminate.
  intros _. eexists. split; [reflexivity | discriminate].
Qed.

Lemma client_report_view_url (api : string -> Scan)
  (lower : string -> string) (businessName : string)
  (results : list Scan) (doc : json) (latest : Scan) :
  client_report api lower businessName results = Printed doc ->
  hd_error (client_scans lower businessName results) = Some latest ->
  (truthy_str (public_share_token (api (uuid latest))) = true ->
     exists t, public_share_token (api (uuid latest)) = Some t
       /\ field "view_url" doc = Some (JStr (share_url t)))
  /\ (truthy_str (public_share_token (api (uuid latest))) = false ->
        field "view_url" doc = None).
Proof.
  unfold client_report, client_scans.
  destruct (String.eqb businessName EmptyString); [discriminate|].
  destruct (filter (name_matches lower (lower businessName)) results)
    as [|l rest] eqn:F; [discriminate|].
  simpl hd_error. intros H [= ->].
  destruct (wins_drops api (latest :: rest) (api (uuid latest))) as [w d].
  destruct (truthy_str (public_share_token (api (uuid latest)))) eqn:T;
    injection H as <-; (split; [|intros; try discriminate]).
  - intros _. destruct (truthy_str_Some _ T) as [t [E _]].
    exists t. split; [exact E|]. rewrite E. simpl field.
    rewrite own_set. reflexivity.
  - intros X; discriminate X.
  - now destruct (business latest).
Qed.

Lemma portfolio_view_url (results : list Scan) (s : Summary) (c : Client) :
  portfolio_summary results = Ok s ->
  In c (clients s) ->
  exists g latest rest,
    group_scans results = Ok g
    /\ In (client_name c, latest :: rest) g
    /\ (truthy_str (public_share_token latest) = true ->
          exists t, public_share_token latest = Some t
            /\ field "view_url" (client_json c) = Some (JStr (share_url t)))
    /\ (truthy_str (public_share_token latest) = false ->
          field "view_url" (client_json c) = Some JNull).
Proof.
  intros H Hc.
  destruct (portfolio_summary_In _ _ _ H Hc) as [g [latest [rest [G [Hin E]]]]].
  exists g, latest, rest. split; [exact G|]. split; [exact Hin|].
  unfold client_of in E. simpl in E. injection E as E. rewrite <- E.
  simpl. split; intros T; rewrite T.
  - destruct (truthy_str_Some _ T) as [t [Et _]]. exists t.
    split; [exact Et|]. now rewrite Et.
  - reflexivity.
Qed.

(** C4, as the code has it: where the latest scan carries a share token
    both reports surface the view URL built from it; without a token
    the client report has no [view_url] property, whereas every client
    of the portfolio summary has one, equal to [null].  (The daily
    priorities, the quick wins and the at-risk list never carry the
    property.) *)
Theorem view_url_of_reports :
  (forall (api : string -> Scan) (lower : string -> string)
          (businessName : string) (results : list Scan)
          (doc : json) (latest : Scan),
     client_report api lower businessName results = Printed doc ->
     hd_error (client_scans lower businessName results) = Some latest ->
     (truthy_str (public_share_token (api (uuid latest))) = true ->
        exists t, public_share_token (api (uuid latest)) = Some t
          /\ field "view_url" doc = Some (JStr (share_url t)))
     /\ (truthy_str (public_share_token (api (uuid latest))) = false ->
           field "view_url" doc = None))
  /\ (forall (results : list Scan) (s : Summary) (c : Client),
        portfolio_summary results = Ok s ->
        In c (clients s) ->
        exists g latest rest,
          group_scans results = Ok g
          /\ In (client_name c, latest :: rest) g
          /\ (truthy_str (public_share_token latest) = true ->
                exists t, public_share_token latest = Some t
                  /\ field "view_url" (client_json c)
                     = Some (JStr (share_url t)))
          /\ (truthy_str (public_share_token latest) = false ->
                field "view_url" (client_json c) = Some JNull)).
Proof.
  split.
  - apply client_report_view_url.
  - apply portfolio_view_url.
Qed.

Lemma view_url_of_reports_witness :
  client_report (Sample.details acme_listing) Sample.lower "acme" acme_listing
  = Printed acme_report
  /\ hd_error (client_scans Sample.lower "acme" acme_listing)
     = Some Sample.acme_feb
  /\ (exists t,
        public_share_token
          (Sample.details acme_listing (uuid Sample.acme_feb)) = Some t
        /\ field "view_url" acme_report = Some (JStr (share_url t)))
  /\ portfolio_summary [Sample.dent_new; Sample.dent_old] = Ok dent_summary
  /\ In dent_client (clients dent_summary)
  /\ exists g latest rest,
       group_scans [Sample.dent_new; Sample.dent_old] = Ok g
       /\ In ("Dent", latest :: rest) g
       /\ (truthy_str (public_share_token latest) = false ->
             field "view_url" (client_json dent_client) = Some JNull).
Proof.
  assert (H1 : client_report (Sample.details acme_listing) Sample.lower
                 "acme" acme_listing = Printed acme_report)
    by (vm_compute; reflexivity).
  assert (H2 : hd_error (client_scans Sample.lower "acme" acme_listing)
               = Some Sample.acme_feb) by reflexivity.
  assert (H3 : portfolio_summary [Sample.dent_new; Sample.dent_old]
               = Ok dent_summary) by reflexivity.
  split; [exact H1|]. split; [exact H2|].
  split; [exact (proj1 (proj1 view_url_of_reports _ _ _ _ _ _ H1 H2) eq_refl)|].
  split; [exact H3|].
  assert (H4 : In dent_client (clients dent_summary))
    by (left; reflexivity).
  split; [exact H4|].
  destruct (proj2 view_url_of_reports _ _ _ H3 H4)
    as [g [latest [rest [G [Hin [_ Hnull]]]]]].
  exists g, latest, rest. split; [exact G|]. split; [exact Hin | exact Hnull].
Defined.

(** C4, as stated, fails in the portfolio summary: Cafe's scan has no
    share token and the client of the summary is printed with
    [view_url] equal to [null]. *)
Lemma portfolio_view_url_null :
  match portfolio_summary [Sample.cafe] with
  | Ok s => map (fun c => field "view_url" (client_json c)) (clients s)
  | Throw _ => []
  end = [Some JNull].
Proof. reflexivity. Qed.

(** ** C7: the client report of a business with fewer than two scans *)



(** ** C5: the quick-win windows *)




(** The boundaries: 11, 15 and 20 are in the window of the listing and
    10.9 and 20.1 are outside; 15 is the last rank of the daily window
    and the last one labelled [High]. *)
Lemma quick_win_boundaries :
  map (fun q => quick_win (Sample.kw "k" (Some q)))
      [109 # 10; 11; 15; 151 # 10; 20; 201 # 10; 0]%Q
  = [false; true; true; true; true; false; false]
  /\ map (fun q => daily_quick_win (Sample.kw "k" (Some q)))
       [109 # 10; 11; 15; 151 # 10; 20; 201 # 10; 0]%Q
     = [false; true; true; false; false; false; false]
  /\ map (fun q => opportunity_of (Sample.kw "k" (Some q)))
       [11; 15; 151 # 10; 20]%Q
     = ["High"; "High"; "Medium"; "Medium"].
Proof. repeat split. Qed.

(** ** C10: a rank of 0 *)

Section MapValues.
Variables V W : Type.
Variable f : V -> W.

Lemma own_map_values (k : string) (o : object V) :
  own k (map_values V W f o) = option_map f (own k o).
Proof.
  induction o as [|[k0 v0] o IH]; simpl; [reflexivity|].
  now destruct (String.eqb k k0).
Qed.

Lemma set_map_values (k : string) (v : V) (o : object V) :
  set k (f v) (map_values V W f o) = map_values V W f (set k v o).
Proof.
  induction o as [|[k0 v0] o IH]; simpl; [reflexivity|].
  destruct (String.eqb k k0); simpl; [reflexivity|].
  now rewrite IH.
Qed.

Lemma filter_keys_map_values (p : string -> bool) (o : object V) :
  filter (fun e => p (fst e)) (map_values V W f o)
  = map_values V W f (filter (fun e => p (fst e)) o).
Proof.
  induction o as [|[k0 v0] o IH]; simpl; [reflexivity|].
  destruct (p k0); simpl; now rewrite IH.
Qed.

Lemma entries_map_values (o : object V) :
  Object_entries (map_values V W f o)
  = map_values V W f (Object_entries o).
Proof.
  unfold Object_entries.
  rewrite (filter_keys_map_values is_index).
  rewrite (filter_keys_map_values (fun k => negb (is_index k))).
  unfold map_values. rewrite map_app. f_equal.
  now apply sort_map.
Qed.
End MapValues.

Lemma forEach_map (A B S : Type) (body' : S -> B -> result S)
  (body : S -> A -> result S) (h : A -> B) (xs : list A) (s : S) :
  (forall st x, body' st (h x) = body st x) ->
  forEach body' (map h xs) s = forEach body xs s.
Proof.
  intros H. revert s. induction xs as [|x xs IH]; simpl; intros s.
  - reflexivity.
  - rewrite H. destruct (body s x); simpl; [apply IH | reflexivity].
Qed.

Lemma filter_map_comm (A B : Type) (p' : B -> bool) (p : A -> bool)
  (h : A -> B) (l : list A) :
  (forall x, p' (h x) = p x) ->
  filter p' (map h l) = map h (filter p l).
Proof.
  intros H. induction l as [|x l IH]; simpl; [reflexivity|].
  rewrite H. destruct (p x); simpl; now rewrite IH.
Qed.

Lemma find_map (A B : Type) (p' : B -> bool) (p : A -> bool)
  (h : A -> B) (l : list A) :
  (forall x, p' (h x) = p x) ->
  find p' (map h l) = option_map h (find p l).
Proof.
  intros H. induction l as [|x l IH]; simpl; [reflexivity|].
  rewrite H. now destruct (p x).
Qed.

Lemma zero_as_null_cases (x : option Q) :
  (truthy x = true /\ zero_as_null x = x)
  \/ (truthy x = false /\ zero_as_null x = None).
Proof. unfold zero_as_null. destruct (truthy x); [left | right]; tauto. Qed.

Lemma business_name_zero_as_null (scan : Scan) :
  business_name_of (scan_zero_as_null scan) = business_name_of scan.
Proof. reflexivity. Qed.

(** Grouping does not look at the ranks. *)
Lemma group_body_zero_as_null (g : object (list Scan)) (scan : Scan) :
  group_body (map_values _ _ (map scan_zero_as_null) g)
    (scan_zero_as_null scan)
  = map_result _ _ (map_values _ _ (map scan_zero_as_null))
      (group_body g scan).
Proof.
  rewrite !group_body_eq, business_name_zero_as_null, own_map_values.
  destruct (own (business_name_of scan) g) as [l|]; simpl.
  - rewrite <- set_map_values, map_app. reflexivity.
  - destruct (inherited (business_name_of scan)); simpl; [reflexivity|].
    now rewrite <- set_map_values.
Qed.

Lemma forEach_group_zero_as_null (xs : list Scan) (g : object (list Scan)) :
  forEach group_body (map scan_zero_as_null xs)
    (map_values _ _ (map scan_zero_as_null) g)
  = map_result _ _ (map_values _ _ (map scan_zero_as_null))
      (forEach group_body xs g).
Proof.
  revert g. induction xs as [|x xs IH]; simpl; intros g; [reflexivity|].
  rewrite group_body_zero_as_null.
  destruct (group_body g x) as [g1|msg]; simpl; [apply IH | reflexivity].
Qed.

Lemma group_scans_zero_as_null (results : list Scan) :
  group_scans (map scan_zero_as_null results)
  = map_result _ _ (map_values _ _ (map scan_zero_as_null))
      (group_scans results).
Proof. apply (forEach_group_zero_as_null results []). Qed.

Lemma second_rank_zero_as_null (scans : list Scan) :
  second_rank (map scan_zero_as_null scans) = zero_as_null (second_rank scans).
Proof.
  unfold second_rank. destruct scans as [|a [|b rest]]; reflexivity.
Qed.

Ltac zero_cases x :=
  let T := fresh "T" in
  let E := fresh "E" in
  destruct (zero_as_null_cases x) as [[T E]|[T E]];
  rewrite ?E, ?T; simpl.

Lemma risk_of_zero_as_null (scans : list Scan) (latest : Scan) :
  risk_of (map scan_zero_as_null scans) (scan_zero_as_null latest)
  = risk_of scans latest.
Proof.
  unfold risk_of, rule_single, rule_poor, rule_dropped.
  rewrite length_map, second_rank_zero_as_null. simpl avg_rank.
  zero_cases (avg_rank latest); [|reflexivity].
  zero_cases (second_rank scans); [reflexivity|].
  now rewrite ?andb_false_r.
Qed.

Lemma at_risk_body_zero_as_null (atRisk : list AtRisk)
  (entry : string * list Scan) :
  at_risk_body atRisk (entry_zero_as_null entry) = at_risk_body atRisk entry.
Proof.
  destruct entry as [k [|latest rest]]; [reflexivity|].
  unfold entry_zero_as_null, at_risk_body. simpl fst. simpl snd.
  change (map scan_zero_as_null (latest :: rest))
    with (scan_zero_as_null latest :: map scan_zero_as_null rest).
  cbv iota.
  change (scan_zero_as_null latest :: map scan_zero_as_null rest)
    with (map scan_zero_as_null (latest :: rest)).
  now rewrite risk_of_zero_as_null.
Qed.

Lemma classify_zero_as_null (scans : list Scan) (latest : Scan) :
  classify (map scan_zero_as_null scans) (zero_as_null (avg_rank latest))
  = classify scans (avg_rank latest).
Proof.
  unfold classify. rewrite length_map, second_rank_zero_as_null.
  zero_cases (avg_rank latest); [|reflexivity].
  zero_cases (second_rank scans); [reflexivity|].
  now rewrite ?andb_false_r.
Qed.

Lemma portfolio_body_zero_as_null (p : Portfolio)
  (entry : string * list Scan) :
  portfolio_body p (entry_zero_as_null entry) = portfolio_body p entry.
Proof.
  destruct entry as [k [|latest rest]]; [reflexivity|].
  unfold entry_zero_as_null, portfolio_body. simpl fst. simpl snd.
  change (map scan_zero_as_null (latest :: rest))
    with (scan_zero_as_null latest :: map scan_zero_as_null rest).
  cbv iota.
  change (scan_zero_as_null latest :: map scan_zero_as_null rest)
    with (map scan_zero_as_null (latest :: rest)).
  simpl avg_rank. simpl public_share_token.
  rewrite classify_zero_as_null, truthy_zero_as_null.
  destruct (classify (latest :: rest) (avg_rank latest)) as [st chg].
  zero_cases (avg_rank latest); reflexivity.
Qed.

Lemma daily_quick_win_zero_as_null (kw : KeywordResult) :
  daily_quick_win (kw_zero_as_null kw) = daily_quick_win kw.
Proof.
  unfold daily_quick_win. simpl.
  zero_cases (kw_avg_rank kw); reflexivity.
Qed.

Lemma quick_win_zero_as_null (kw : KeywordResult) :
  quick_win (kw_zero_as_null kw) = quick_win kw.
Proof.
  unfold quick_win. simpl.
  zero_cases (kw_avg_rank kw); reflexivity.
Qed.

Lemma prioritize_body_zero_as_null (api : string -> Scan) (p : Priorities)
  (entry : string * list Scan) :
  prioritize_body (fun id => scan_zero_as_null (api id)) p
    (entry_zero_as_null entry)
  = prioritize_body api p entry.
Proof.
  destruct entry as [k [|latest rest]]; [reflexivity|].
  unfold entry_zero_as_null, prioritize_body. simpl fst. simpl snd.
  change (map scan_zero_as_null (latest :: rest))
    with (scan_zero_as_null latest :: map scan_zero_as_null rest).
  cbv iota.
  change (scan_zero_as_null latest :: map scan_zero_as_null rest)
    with (map scan_zero_as_null (latest :: rest)).
  rewrite length_map, second_rank_zero_as_null.
  simpl avg_rank. simpl uuid. simpl keyword_results.
  rewrite (find_map _ _ _ daily_quick_win kw_zero_as_null _
             daily_quick_win_zero_as_null).
  cbv zeta. apply f_equal. apply (f_equal3 Build_Priorities).
  - zero_cases (avg_rank latest); [|reflexivity].
    zero_cases (second_rank (latest :: rest)); [reflexivity|].
    now rewrite ?andb_false_r.
  - zero_cases (avg_rank latest); reflexivity.
  - destruct (find daily_quick_win (keyword_results (api (uuid latest))))
      as [kw|] eqn:F; simpl; [|reflexivity].
    apply find_some in F. destruct F as [_ F].
    unfold daily_quick_win in F.
    apply andb_prop in F. destruct F as [F _].
    apply andb_prop in F. destruct F as [F _].
    unfold zero_as_null. now rewrite F.
Qed.

Lemma quick_win_entries_zero_as_null (name : string)
  (kws : list KeywordResult) :
  map (quick_win_entry name) (filter quick_win (map kw_zero_as_null kws))
  = map (quick_win_entry name) (filter quick_win kws).
Proof.
  induction kws as [|kw kws IH]; simpl; [reflexivity|].
  rewrite quick_win_zero_as_null.
  destruct (quick_win kw) eqn:Q; [|exact IH].
  simpl. rewrite IH. f_equal.
  unfold quick_win in Q.
  apply andb_prop in Q. destruct Q as [Q _].
  apply andb_prop in Q. destruct Q as [Q _].
  unfold quick_win_entry, opportunity_of. simpl.
  unfold zero_as_null. now rewrite Q.
Qed.

Lemma quick_wins_body_zero_as_null (api : string -> Scan)
  (quickWins : list QuickWin) (entry : string * Scan) :
  quick_wins_body (fun id => scan_zero_as_null (api id)) quickWins
    (fst entry, scan_zero_as_null (snd entry))
  = quick_wins_body api quickWins entry.
Proof.
  destruct entry as [k scan]. unfold quick_wins_body. simpl.
  now rewrite quick_win_entries_zero_as_null.
Qed.

Lemma forEach_latest_zero_as_null (xs : list Scan) (g : object Scan) :
  forEach latest_body (map scan_zero_as_null xs)
    (map_values _ _ scan_zero_as_null g)
  = map_result _ _ (map_values _ _ scan_zero_as_null)
      (forEach latest_body xs g).
Proof.
  revert g. induction xs as [|x xs IH]; simpl; intros g; [reflexivity|].
  unfold latest_body at 1 3.
  rewrite business_name_zero_as_null, own_map_values.
  destruct (own (business_name_of x) g); simpl; [apply IH|].
  destruct (inherited (business_name_of x)); simpl; [apply IH|].
  rewrite set_map_values. apply IH.
Qed.

Lemma at_risk_clients_zero_as_null (results : list Scan) :
  at_risk_clients (map scan_zero_as_null results) = at_risk_clients results.
Proof.
  unfold at_risk_clients. rewrite group_scans_zero_as_null.
  destruct (group_scans results) as [g|msg]; simpl; [|reflexivity].
  rewrite entries_map_values.
  change (map_values _ _ (map scan_zero_as_null) (Object_entries g))
    with (map entry_zero_as_null (Object_entries g)).
  now rewrite (forEach_map _ _ _ at_risk_body at_risk_body entry_zero_as_null
                 _ _ at_risk_body_zero_as_null).
Qed.

Lemma portfolio_summary_zero_as_null (results : list Scan) :
  portfolio_summary (map scan_zero_as_null results)
  = portfolio_summary results.
Proof.
  unfold portfolio_summary. rewrite group_scans_zero_as_null.
  destruct (group_scans results) as [g|msg]; simpl; [|reflexivity].
  rewrite entries_map_values.
  change (map_values _ _ (map scan_zero_as_null) (Object_entries g))
    with (map entry_zero_as_null (Object_entries g)).
  rewrite !length_map.
  now rewrite (forEach_map _ _ _ portfolio_body portfolio_body
                 entry_zero_as_null _ _ portfolio_body_zero_as_null).
Qed.

Lemma prioritize_today_zero_as_null (api : string -> Scan)
  (results : list Scan) :
  prioritize_today (fun id => scan_zero_as_null (api id))
    (map scan_zero_as_null results)
  = prioritize_today api results.
Proof.
  unfold prioritize_today. rewrite group_scans_zero_as_null.
  destruct (group_scans results) as [g|msg]; simpl; [|reflexivity].
  rewrite entries_map_values.
  change (map_values _ _ (map scan_zero_as_null) (Object_entries g))
    with (map entry_zero_as_null (Object_entries g)).
  now rewrite (forEach_map _ _ _ _ (prioritize_body api) entry_zero_as_null
                 _ _ (prioritize_body_zero_as_null api)).
Qed.

Lemma quick_wins_find_zero_as_null (api : string -> Scan)
  (lower : string -> string) (businessFilter : option string)
  (results : list Scan) :
  quick_wins_find (fun id => scan_zero_as_null (api id)) lower businessFilter
    (map scan_zero_as_null results)
  = quick_wins_find api lower businessFilter results.
Proof.
  unfold quick_wins_find.
  set (scans := if truthy_str (option_map lower businessFilter)
                then filter _ results else results).
  assert (E : (if truthy_str (option_map lower businessFilter)
               then filter (name_matches lower
                              match option_map lower businessFilter with
                              | Some t => t
                              | None => EmptyString
                              end) (map scan_zero_as_null results)
               else map scan_zero_as_null results)
              = map scan_zero_as_null scans).
  { unfold scans. destruct (truthy_str (option_map lower businessFilter));
      [|reflexivity].
    now apply filter_map_comm. }
  rewrite E.
  pose proof (forEach_latest_zero_as_null scans []) as L.
  change (map_values Scan Scan scan_zero_as_null []) with (@nil (string * Scan)) in L.
  rewrite L. clear L.
  destruct (forEach latest_body scans []) as [g|msg]; simpl; [|reflexivity].
  rewrite entries_map_values.
  change (map_values _ _ scan_zero_as_null (Object_entries g))
    with (map (fun e : string * Scan => (fst e, scan_zero_as_null (snd e)))
            (Object_entries g)).
  now rewrite (forEach_map _ _ _ _ (quick_wins_body api)
                 (fun e : string * Scan => (fst e, scan_zero_as_null (snd e)))
                 _ _ (quick_wins_body_zero_as_null api)).
Qed.

Lemma classify_zero (scans : list Scan) :
  classify scans (Some 0%Q) = (New, None).
Proof.
  unfold classify. destruct (2 <=? length scans)%nat; reflexivity.
Qed.

(** C10, as the code has it: the portfolio summary, the at-risk list,
    the daily priorities and the quick wins do not tell a rank of 0
    from a missing rank, in the listing or in the scan details: such a
    business has status [new] and change [null] and is left out of the
    average, and such a keyword is no quick win.  (The client report
    prints the ranks of its latest scan as they are.) *)
Theorem zero_rank_reads_as_null (api : string -> Scan)
  (lower : string -> string) (businessFilter : option string)
  (results : list Scan) :
  portfolio_summary (map scan_zero_as_null results)
  = portfolio_summary results
  /\ at_risk_clients (map scan_zero_as_null results)
     = at_risk_clients results
  /\ prioritize_today (fun id => scan_zero_as_null (api id))
       (map scan_zero_as_null results)
     = prioritize_today api results
  /\ quick_wins_find (fun id => scan_zero_as_null (api id)) lower
       businessFilter (map scan_zero_as_null results)
     = quick_wins_find api lower businessFilter results
  /\ (forall scans, classify scans (Some 0%Q) = (New, None))
  /\ (forall p k id b t ks token kws rest,
        exists p',
          portfolio_body p
            (k, {| uuid := id; business := b; avg_rank := Some 0%Q;
                   created_at := t; keywords := ks;
                   public_share_token := token;
                   keyword_results := kws |} :: rest) = Ok p'
          /\ totalRank p' = totalRank p /\ rankCount p' = rankCount p)
  /\ (forall scans latest,
        risk_of (map scan_zero_as_null scans) (scan_zero_as_null latest)
        = risk_of scans latest)
  /\ (forall k best n,
        quick_win {| keyword := k; kw_avg_rank := Some 0%Q;
                     best_rank := best; found_count := n |} = false
        /\ daily_quick_win {| keyword := k; kw_avg_rank := Some 0%Q;
                              best_rank := best; found_count := n |} = false).
Proof.
  split; [apply portfolio_summary_zero_as_null|].
  split; [apply at_risk_clients_zero_as_null|].
  split; [apply prioritize_today_zero_as_null|].
  split; [apply quick_wins_find_zero_as_null|].
  split; [|split; [|split]].
  - apply classify_zero.
  - intros. unfold portfolio_body. simpl avg_rank. rewrite classify_zero.
    eexists. split; [reflexivity|]. split; reflexivity.
  - apply risk_of_zero_as_null.
  - intros k best n. split; reflexivity.
Qed.

(** C10, as stated, fails in the client report, which prints the rank
    of the latest scan as the API gave it: [0] for a rank of 0 and
    [null] for a missing rank. *)
Lemma client_report_shows_zero_rank :
  client_report (Sample.details [Sample.fern_new]) Sample.lower "Fern"
    [Sample.fern_new]
  = Printed (fern_report (JNum 0))
  /\ client_report
       (Sample.details [scan_zero_as_null Sample.fern_new]) Sample.lower
       "Fern" [scan_zero_as_null Sample.fern_new]
     = Printed (fern_report JNull)
  /\ fern_report (JNum 0) <> fern_report JNull.
Proof.
  split; [vm_compute; reflexivity|].
  split; [vm_compute; reflexivity|].
  discriminate.
Qed.

(** * Further properties *)

(** ** The portfolio summary: order, counters and average *)

Lemma count_status_app (st : Status) (a b : list Client) :
  count_status st (a ++ b) = count_status st a + count_status st b.
Proof.
  unfold count_status. rewrite filter_app, length_app. lia.
Qed.

Lemma count_status_one (st : Status) (c : Client) :
  count_status st [c] = if has_status st c then 1 else 0.
Proof. unfold count_status. simpl. now destruct (has_status st c). Qed.

Lemma count_status_total (cs : list Client) :
  count_status Improving cs + count_status Declining cs
  + count_status Stable cs + count_status New cs
  = Z.of_nat (length cs).
Proof.
  induction cs as [|c cs IH]; [reflexivity|].
  change (c :: cs) with ([c] ++ cs).
  rewrite !count_status_app, !count_status_one, length_app, Nat2Z.inj_add.
  unfold has_status. rewrite <- IH.
  destruct (status c); cbv beta iota delta [order Z.eqb Pos.eqb];
    simpl length; lia.
Qed.

Lemma sum_ranks_app (a b : list Q) (from : Q) :
  sum_ranks (a ++ b) from = sum_ranks b (sum_ranks a from).
Proof. unfold sum_ranks. apply fold_left_app. Qed.

Lemma portfolio_body_step (p : Portfolio) (k : string) (latest : Scan)
  (rest : list Scan) :
  exists q, portfolio_body p (k, latest :: rest) = Ok q
    /\ clients (summary q)
       = clients (summary p) ++ client_of (k, latest :: rest)
    /\ improving (summary q)
       = improving (summary p)
         + count_status Improving (client_of (k, latest :: rest))
    /\ declining (summary q)
       = declining (summary p)
         + count_status Declining (client_of (k, latest :: rest))
    /\ stable (summary q)
       = stable (summary p)
         + count_status Stable (client_of (k, latest :: rest))
    /\ total_clients (summary q) = total_clients (summary p)
    /\ total_scans (summary q) = total_scans (summary p)
    /\ totalRank q = sum_ranks (rated_rank (k, latest :: rest)) (totalRank p)
    /\ rankCount q
       = rankCount p + Z.of_nat (length (rated_rank (k, latest :: rest))).
Proof.
  unfold portfolio_body, client_of, rated_rank. simpl fst. simpl snd.
  cbv iota.
  destruct (classify (latest :: rest) (avg_rank latest)) as [st chg].
  eexists. split; [reflexivity|]. simpl summary. simpl clients.
  simpl improving. simpl declining. simpl stable. simpl total_clients.
  simpl total_scans. simpl totalRank. simpl rankCount.
  rewrite !count_status_one. unfold has_status, count. simpl status.
  repeat split;
    try (destruct st; cbv beta iota delta [order Z.eqb Pos.eqb]; lia);
    destruct (truthy (avg_rank latest)); simpl length;
    (reflexivity || lia).
Qed.

Lemma forEach_portfolio_state (entries : list (string * list Scan))
  (p : Portfolio) :
  Forall (fun e => snd e <> []) entries ->
  exists p', forEach portfolio_body entries p = Ok p'
    /\ clients (summary p') = clients (summary p) ++ flat_map client_of entries
    /\ improving (summary p')
       = improving (summary p)
         + count_status Improving (flat_map client_of entries)
    /\ declining (summary p')
       = declining (summary p)
         + count_status Declining (flat_map client_of entries)
    /\ stable (summary p')
       = stable (summary p) + count_status Stable (flat_map client_of entries)
    /\ total_clients (summary p') = total_clients (summary p)
    /\ total_scans (summary p') = total_scans (summary p)
    /\ totalRank p' = sum_ranks (flat_map rated_rank entries) (totalRank p)
    /\ rankCount p'
       = rankCount p + Z.of_nat (length (flat_map rated_rank entries)).
Proof.
  intros H. revert p.
  induction H as [|[k scans] entries Hne _ IH]; intros p.
  - exists p. simpl. rewrite app_nil_r, !Z.add_0_r. repeat split.
  - simpl in Hne. destruct scans as [|latest rest]; [contradiction|].
    destruct (portfolio_body_step p k latest rest)
      as [q [Hq [Qc [Qi [Qd [Qs [Qtc [Qts [Qtr Qrc]]]]]]]]].
    destruct (IH q) as [p' [Hp' [Hc [Hi [Hd [Hs [Htc [Hts [Htr Hrc]]]]]]]]].
    exists p'.
    change (forEach portfolio_body ((k, latest :: rest) :: entries) p)
      with (bind (portfolio_body p (k, latest :: rest))
              (forEach portfolio_body entries)).
    rewrite Hq. simpl bind.
    split; [exact Hp'|].
    change (flat_map client_of ((k, latest :: rest) :: entries))
      with (client_of (k, latest :: rest) ++ flat_map client_of entries).
    change (flat_map rated_rank ((k, latest :: rest) :: entries))
      with (rated_rank (k, latest :: rest) ++ flat_map rated_rank entries).
    rewrite !count_status_app, sum_ranks_app, length_app, Nat2Z.inj_add.
    rewrite Hc, Hi, Hd, Hs, Htc, Hts, Htr, Hrc, Qc, Qi, Qd, Qs, Qtc, Qts,
      Qtr, Qrc, <- app_assoc.
    repeat split; lia.
Qed.

Lemma portfolio_summary_state (results : list Scan) (s : Summary) :
  portfolio_summary results = Ok s ->
  exists g,
    group_scans results = Ok g
    /\ clients s = sort by_status (flat_map client_of (Object_entries g))
    /\ improving s
       = count_status Improving (flat_map client_of (Object_entries g))
    /\ declining s
       = count_status Declining (flat_map client_of (Object_entries g))
    /\ stable s
       = count_status Stable (flat_map client_of (Object_entries g))
    /\ total_clients s = Z.of_nat (length (Object_entries g))
    /\ total_scans s = Z.of_nat (length results)
    /\ avg_rank_across_portfolio s
       = rounded_mean (flat_map rated_rank (Object_entries g)).
Proof.
  unfold portfolio_summary. intros H.
  destruct (group_scans results) as [g|msg] eqn:G; [|discriminate].
  exists g. split; [reflexivity|]. simpl in H.
  match type of H with
  | bind (forEach _ _ ?q) _ = _ =>
      destruct (forEach_portfolio_state _ q (entries_nonempty _ _ G))
        as [p' [Hp' [Hc [Hi [Hd [Hs [Htc [Hts [Htr Hrc]]]]]]]]]
  end.
  rewrite Hp' in H. simpl in H. injection H as <-. simpl in *.
  rewrite Hc, Hi, Hd, Hs, Htc, Hts, Htr, Hrc.
  repeat split. unfold rounded_mean.
  destruct (flat_map rated_rank (Object_entries g)) as [|r ranks];
    [reflexivity|].
  replace (Z.of_nat (length (r :: ranks)) >? 0) with true; [reflexivity|].
  symmetry. apply Z.gtb_lt. simpl length. lia.
Qed.

Lemma by_status_same (st : Status) (a b : Client) :
  has_status st a = true -> has_status st b = true -> by_status a b = false.
Proof.
  unfold has_status, by_status. intros Ha Hb.
  apply Z.eqb_eq in Ha, Hb. rewrite Ha, Hb, Z.sub_diag. reflexivity.
Qed.




Lemma length_client_of (entries : list (string * list Scan)) :
  Forall (fun e => snd e <> []) entries ->
  length (flat_map client_of entries) = length entries.
Proof.
  induction 1 as [|[k scans] entries Hne _ IH]; [reflexivity|].
  simpl in Hne. destruct scans as [|latest rest]; [contradiction|].
  simpl. now rewrite IH.
Qed.

Lemma add_names_NoDup (names seen : list string) :
  NoDup seen -> NoDup (add_names seen names).
Proof.
  revert seen. induction names as [|n names IH]; simpl; intros seen H;
    [exact H|].
  apply IH. destruct (existsb (String.eqb n) seen) eqn:E; [exact H|].
  apply (Permutation_NoDup (l := n :: seen)).
  - apply Permutation_cons_append.
  - constructor; [|exact H]. intros Hin.
    assert (X : existsb (String.eqb n) seen = true).
    { apply existsb_exists. exists n. split; [exact Hin|].
      apply String.eqb_refl. }
    rewrite X in E. discriminate.
Qed.

Lemma add_names_In (names seen : list string) (n : string) :
  In n (add_names seen names) <-> In n seen \/ In n names.
Proof.
  revert seen. induction names as [|m names IH]; simpl; intros seen.
  - tauto.
  - rewrite IH. destruct (existsb (String.eqb m) seen) eqn:E.
    + apply existsb_exists in E. destruct E as [x [Hx E]].
      apply String.eqb_eq in E. subst x.
      split; [tauto|]. intros [H|[H|H]]; try tauto. subst. tauto.
    + rewrite in_app_iff. simpl. tauto.
Qed.

(** X2: the counters of the summary agree with its list of clients:
    [improving], [declining] and [stable] count the clients of that
    status, [total_clients] is the length of the list and the number of
    distinct business names of the listing (a missing name counting as
    [Unknown]), [total_scans] the length of the listing; with the
    clients that are [new] the three counters add up to
    [total_clients]. *)
Theorem portfolio_counters (results : list Scan) (s : Summary) :
  portfolio_summary results = Ok s ->
  improving s = count_status Improving (clients s)
  /\ declining s = count_status Declining (clients s)
  /\ stable s = count_status Stable (clients s)
  /\ improving s + declining s + stable s + count_status New (clients s)
     = total_clients s
  /\ total_clients s = Z.of_nat (length (clients s))
  /\ total_clients s
     = Z.of_nat (length (first_seen (map business_name_of results)))
  /\ NoDup (first_seen (map business_name_of results))
  /\ (forall n, In n (first_seen (map business_name_of results))
                <-> In n (map business_name_of results))
  /\ total_scans s = Z.of_nat (length results).
Proof.
  intros H.
  destruct (portfolio_summary_state _ _ H)
    as [g [G [Hc [Hi [Hd [Hs [Htc [Hts _]]]]]]]].
  assert (Hcount : forall st,
    count_status st (clients s)
    = count_status st (flat_map client_of (Object_entries g))).
  { intros st. unfold count_status. rewrite Hc.
    now rewrite (sort_stable _ _ _ (by_status_same st)). }
  assert (Hlen : Z.of_nat (length (clients s)) = total_clients s).
  { rewrite Hc, Htc, (Permutation_length (sort_perm _ _ _)).
    now rewrite (length_client_of _ (entries_nonempty _ _ G)). }
  rewrite !Hcount, <- Hi, <- Hd, <- Hs.
  split; [reflexivity|]. split; [reflexivity|]. split; [reflexivity|].
  split.
  { rewrite <- Hlen, <- (count_status_total (clients s)), !Hcount. lia. }
  split; [now rewrite Hlen|].
  split.
  { rewrite Htc, <- (group_scans_keys _ _ G), length_map.
    f_equal. apply Permutation_length, entries_perm. }
  split; [apply add_names_NoDup; constructor|].
  split; [|exact Hts].
  intros n. unfold first_seen. rewrite add_names_In. simpl. tauto.
Qed.

Lemma portfolio_counters_witness :
  portfolio_summary [Sample.dent_new; Sample.dent_old] = Ok dent_summary
  /\ declining dent_summary = count_status Declining (clients dent_summary)
  /\ total_clients dent_summary = Z.of_nat (length (clients dent_summary)).
Proof.
  assert (H : portfolio_summary [Sample.dent_new; Sample.dent_old]
              = Ok dent_summary) by reflexivity.
  split; [exact H|].
  destruct (portfolio_counters _ _ H) as [_ [Hd [_ [_ [Ht _]]]]].
  split; [exact Hd | exact Ht].
Defined.




(** ** One entry for a business *)

Lemma NoDup_flat_map_keys (A B : Type) (key : A -> string)
  (label : B -> string) (f : A -> list B) (l : list A) :
  (forall a b, In b (f a) -> label b = key a) ->
  (forall a, (length (f a) <= 1)%nat) ->
  NoDup (map key l) ->
  NoDup (map label (flat_map f l)).
Proof.
  intros Hlabel Hone. induction l as [|a l IH]; simpl; intros Hnd.
  - constructor.
  - inversion Hnd as [|? ? Hnot Hnd']; subst.
    rewrite map_app. specialize (Hone a).
    pose proof (Hlabel a) as Ha.
    destruct (f a) as [|b [|b' r]]; simpl in *; [now apply IH| |lia].
    constructor; [|now apply IH].
    intros Hin. apply Hnot. rewrite (Ha b) in Hin by now left.
    apply in_map_iff in Hin. destruct Hin as [x [Hx Hin]].
    apply in_flat_map in Hin. destruct Hin as [a' [Ha' Hin]].
    rewrite <- Hx. apply in_map_iff. exists a'. split; [|exact Ha'].
    symmetry. now apply Hlabel.
Qed.

Lemma entries_NoDup (results : list Scan) (g : object (list Scan)) :
  group_scans results = Ok g -> NoDup (map fst (Object_entries g)).
Proof.
  intros G.
  apply (Permutation_NoDup (l := map fst g)).
  - apply Permutation_map, Permutation_sym, entries_perm.
  - apply (forEach_group_NoDup _ _ _ G). constructor.
Qed.

Lemma In_firstn (A : Type) (n : nat) (l : list A) (x : A) :
  In x (firstn n l) -> In x l.
Proof.
  intros H. rewrite <- (firstn_skipn n l). apply in_or_app. now left.
Qed.

Lemma NoDup_firstn (A : Type) (n : nat) (l : list A) :
  NoDup l -> NoDup (firstn n l).
Proof.
  revert n. induction l as [|x l IH]; intros n H.
  - now rewrite firstn_nil.
  - destruct n as [|n]; simpl; [constructor|].
    inversion H as [|? ? Hnot Hnd]; subst. constructor; [|now apply IH].
    intros Hin. apply Hnot. now apply (In_firstn _ n l x).
Qed.

(** The factors and the score of a business go together. *)
Lemma risk_of_factors (scans : list Scan) (latest : Scan) :
  In (length (fst (risk_of scans latest)), snd (risk_of scans latest))
     [ (0%nat, 0); (1%nat, 1); (1%nat, 2); (1%nat, 3); (2%nat, 3);
       (2%nat, 5) ].
Proof.
  unfold risk_of, rule_single, rule_poor, rule_dropped.
  destruct (2 <=? length scans)%nat eqn:L2.
  - assert (L1 : (length scans =? 1)%nat = false).
    { apply Nat.eqb_neq. apply Nat.leb_le in L2. lia. }
    rewrite L1.
    destruct (truthy (avg_rank latest) && truthy (second_rank scans)
              && gtb (num (avg_rank latest) - num (second_rank scans)) 2);
    destruct (truthy (avg_rank latest) && gtb (num (avg_rank latest)) 15);
      simpl; tauto.
  - destruct (length scans =? 1)%nat;
    destruct (truthy (avg_rank latest) && gtb (num (avg_rank latest)) 15);
      simpl; tauto.
Qed.

(** X4: [at-risk:clients] lists a business at most once, and every
    entry carries the factors of its score: one factor for the scores 1
    and 2, two factors for the score 5, one or two for the score 3. *)
Theorem at_risk_entries (results : list Scan) (out : list AtRisk) :
  at_risk_clients results = Ok out ->
  NoDup (map business_name out)
  /\ forall e, In e out ->
       (1 <= length (risk_factors e) <= 2)%nat
       /\ (risk_score e = 1 \/ risk_score e = 2 ->
           length (risk_factors e) = 1%nat)
       /\ (risk_score e = 5 -> length (risk_factors e) = 2%nat).
Proof.
  intros H. destruct (at_risk_clients_In _ _ H) as [g [G [-> _]]].
  split.
  - apply (Permutation_NoDup
             (l := map business_name
                     (flat_map risk_entry (Object_entries g)))).
    + apply Permutation_map, Permutation_sym, sort_perm.
    + apply (NoDup_flat_map_keys _ _ fst).
      * intros a b Hb. now apply risk_entry_In in Hb.
      * intros a. unfold risk_entry. destruct (snd a); [simpl; lia|].
        destruct (snd (risk_of (s :: l) s) >? 0); simpl; lia.
      * now apply (entries_NoDup results).
  - intros e He. apply sort_In, in_flat_map in He.
    destruct He as [[k scans] [_ He]].
    unfold risk_entry in He. simpl in He.
    destruct scans as [|latest rest]; [easy|].
    destruct (snd (risk_of (latest :: rest) latest) >? 0) eqn:P; [|easy].
    destruct He as [<-|[]]. simpl.
    apply Z.gtb_lt in P.
    pose proof (risk_of_factors (latest :: rest) latest) as F.
    destruct (risk_of (latest :: rest) latest) as [factors score].
    simpl in *.
    repeat match type of F with
           | _ \/ _ => destruct F as [F|F]
           end; try contradiction; injection F as <- <-; lia.
Qed.

Lemma at_risk_entries_witness :
  at_risk_clients [Sample.dent_new; Sample.dent_old]
  = Ok [ {| business_name := "Dent"; risk_score := 5;
            risk_factors := ["Rankings dropped from 12 to 18";
                             "Poor visibility (avg rank 18)"];
            action := "Reach out proactively" |} ]
  /\ NoDup ["Dent"].
Proof.
  assert (H : at_risk_clients [Sample.dent_new; Sample.dent_old]
    = Ok [ {| business_name := "Dent"; risk_score := 5;
              risk_factors := ["Rankings dropped from 12 to 18";
                               "Poor visibility (avg rank 18)"];
              action := "Reach out proactively" |} ]) by reflexivity.
  split; [exact H|].
  exact (proj1 (at_risk_entries _ _ H)).
Defined.

(** ** The daily priorities *)

Lemma gtb_lt (x y : Q) : gtb x y = true <-> (y < x)%Q.
Proof.
  unfold gtb. rewrite negb_true_iff. split.
  - intros H. apply Qnot_le_lt. intros L.
    apply Qle_bool_iff in L. congruence.
  - intros H. destruct (Qle_bool x y) eqn:E; [|reflexivity].
    apply Qle_bool_iff in E. exfalso. apply (Qlt_not_le _ _ H E).
Qed.

Lemma ltb_lt (x y : Q) : ltb x y = true <-> (x < y)%Q.
Proof. apply gtb_lt. Qed.

Lemma gtb_le (x y : Q) : gtb x y = false <-> (x <= y)%Q.
Proof.
  unfold gtb. rewrite negb_false_iff. apply Qle_bool_iff.
Qed.

Lemma prioritize_body_step (api : string -> Scan) (p : Priorities)
  (k : string) (latest : Scan) (rest : list Scan) :
  prioritize_body api p (k, latest :: rest)
  = Ok {| urgent := urgent p ++ urgent_of (k, latest :: rest);
          important := important p ++ important_of (k, latest :: rest);
          quick_wins := quick_wins p ++ daily_of api (k, latest :: rest) |}.
Proof.
  unfold prioritize_body, urgent_of, important_of, daily_of.
  cbn [fst snd]. cbv zeta.
  apply f_equal. apply (f_equal3 Build_Priorities).
  - destruct (2 <=? length (latest :: rest))%nat; cbn [andb].
    + destruct (truthy (avg_rank latest)
                && truthy (second_rank (latest :: rest))
                && gtb (num (avg_rank latest)
                        - num (second_rank (latest :: rest))) 3);
        [reflexivity | now rewrite app_nil_r].
    + now rewrite app_nil_r.
  - destruct (truthy (avg_rank latest) && gtb (num (avg_rank latest)) 12);
      [reflexivity | now rewrite app_nil_r].
  - destruct (find daily_quick_win (keyword_results (api (uuid latest))));
      [reflexivity | now rewrite app_nil_r].
Qed.

Lemma forEach_prioritize (api : string -> Scan)
  (entries : list (string * list Scan)) (p : Priorities) :
  Forall (fun e => snd e <> []) entries ->
  forEach (prioritize_body api) entries p
  = Ok {| urgent := urgent p ++ flat_map urgent_of entries;
          important := important p ++ flat_map important_of entries;
          quick_wins := quick_wins p ++ flat_map (daily_of api) entries |}.
Proof.
  intros H. revert p.
  induction H as [|[k scans] entries Hne _ IH]; intros p.
  - simpl. rewrite !app_nil_r. now destruct p.
  - simpl in Hne. destruct scans as [|latest rest]; [contradiction|].
    change (forEach (prioritize_body api) ((k, latest :: rest) :: entries) p)
      with (bind (prioritize_body api p (k, latest :: rest))
              (forEach (prioritize_body api) entries)).
    rewrite prioritize_body_step. cbn [bind]. rewrite IH.
    cbn [urgent important quick_wins flat_map].
    now rewrite <- !app_assoc.
Qed.

Lemma prioritize_today_eq (api : string -> Scan) (results : list Scan)
  (g : object (list Scan)) :
  group_scans results = Ok g ->
  prioritize_today api results
  = Ok {| urgent := firstn 5 (flat_map urgent_of (Object_entries g));
          important := firstn 5 (flat_map important_of (Object_entries g));
          quick_wins :=
            firstn 5 (flat_map (daily_of api) (Object_entries g)) |}.
Proof.
  intros G. unfold prioritize_today. rewrite G. simpl bind.
  rewrite (forEach_prioritize _ _ _ (entries_nonempty _ _ G)).
  reflexivity.
Qed.

Lemma prioritize_today_groups (api : string -> Scan) (results : list Scan)
  (p : Priorities) :
  prioritize_today api results = Ok p ->
  exists g, group_scans results = Ok g
    /\ p = {| urgent := firstn 5 (flat_map urgent_of (Object_entries g));
              important :=
                firstn 5 (flat_map important_of (Object_entries g));
              quick_wins :=
                firstn 5 (flat_map (daily_of api) (Object_entries g)) |}.
Proof.
  intros H. destruct (group_scans results) as [g|msg] eqn:G.
  - exists g. split; [reflexivity|].
    rewrite (prioritize_today_eq _ _ _ G) in H. now injection H.
  - unfold prioritize_today in H. rewrite G in H. discriminate.
Qed.

Lemma urgent_of_label (a : string * list Scan) (t : Task) :
  In t (urgent_of a) -> client t = fst a.
Proof.
  unfold urgent_of. destruct (snd a) as [|latest rest]; [easy|].
  match goal with |- In _ (if ?c then _ else _) -> _ => destruct c end;
    [|easy].
  now intros [<-|[]].
Qed.

Lemma important_of_label (a : string * list Scan) (t : Task) :
  In t (important_of a) -> client t = fst a.
Proof.
  unfold important_of. destruct (snd a) as [|latest rest]; [easy|].
  match goal with |- In _ (if ?c then _ else _) -> _ => destruct c end;
    [|easy].
  now intros [<-|[]].
Qed.

Lemma daily_of_label (api : string -> Scan) (a : string * list Scan)
  (w : DailyWin) :
  In w (daily_of api a) -> win_client w = fst a.
Proof.
  unfold daily_of. destruct (snd a) as [|latest rest]; [easy|].
  destruct (find daily_quick_win (keyword_results (api (uuid latest))));
    [|easy].
  now intros [<-|[]].
Qed.

(** X5: each bucket of [prioritize:today] holds at most five entries,
    the first five that the loop over the businesses produced, and
    names a business at most once. *)
Theorem prioritize_buckets (api : string -> Scan) (results : list Scan)
  (p : Priorities) :
  prioritize_today api results = Ok p ->
  (length (urgent p) <= 5 /\ length (important p) <= 5
   /\ length (quick_wins p) <= 5)%nat
  /\ NoDup (map client (urgent p))
  /\ NoDup (map client (important p))
  /\ NoDup (map win_client (quick_wins p))
  /\ exists g,
       group_scans results = Ok g
       /\ urgent p = firstn 5 (flat_map urgent_of (Object_entries g))
       /\ important p = firstn 5 (flat_map important_of (Object_entries g))
       /\ quick_wins p
          = firstn 5 (flat_map (daily_of api) (Object_entries g)).
Proof.
  intros H. destruct (prioritize_today_groups _ _ _ H) as [g [G ->]].
  cbn [urgent important quick_wins].
  pose proof (entries_NoDup _ _ G) as Hnd.
  split; [repeat split; apply firstn_le_length|].
  split; [|split; [|split]].
  - rewrite <- firstn_map. apply NoDup_firstn.
    apply (NoDup_flat_map_keys _ _ fst); [apply urgent_of_label| |exact Hnd].
    intros a. unfold urgent_of. destruct (snd a); [simpl; lia|].
    match goal with |- (length (if ?c then _ else _) <= _)%nat =>
      destruct c end; simpl; lia.
  - rewrite <- firstn_map. apply NoDup_firstn.
    apply (NoDup_flat_map_keys _ _ fst);
      [apply important_of_label| |exact Hnd].
    intros a. unfold important_of. destruct (snd a); [simpl; lia|].
    match goal with |- (length (if ?c then _ else _) <= _)%nat =>
      destruct c end; simpl; lia.
  - rewrite <- firstn_map. apply NoDup_firstn.
    apply (NoDup_flat_map_keys _ _ fst);
      [apply daily_of_label| |exact Hnd].
    intros a. unfold daily_of. destruct (snd a); [simpl; lia|].
    destruct (find daily_quick_win (keyword_results (api (uuid s))));
      simpl; lia.
  - exists g. repeat split. exact G.
Qed.

Lemma prioritize_buckets_witness :
  prioritize_today (Sample.details Sample.portfolio) Sample.portfolio
  = Ok sample_priorities
  /\ NoDup (map client (important sample_priorities)).
Proof.
  assert (H : prioritize_today (Sample.details Sample.portfolio)
                Sample.portfolio = Ok sample_priorities)
    by (vm_compute; reflexivity).
  split; [exact H|].
  destruct (prioritize_buckets _ _ _ H) as [_ [_ [Hi _]]]. exact Hi.
Defined.

(** What puts a business in the urgent bucket. *)
Lemma urgent_of_In (a : string * list Scan) (t : Task) :
  In t (urgent_of a) ->
  client t = fst a
  /\ exists latest previous rest,
       snd a = latest :: previous :: rest
       /\ truthy (avg_rank latest) = true
       /\ truthy (avg_rank previous) = true
       /\ (3 < num (avg_rank latest) - num (avg_rank previous))%Q.
Proof.
  intros H. split; [now apply urgent_of_label|].
  unfold urgent_of in H. destruct (snd a) as [|latest [|previous rest]].
  - easy.
  - simpl in H. easy.
  - change (2 <=? length (latest :: previous :: rest))%nat with true in H.
    unfold second_rank in H. simpl nth_error in H. cbn [andb] in H.
    destruct (truthy (avg_rank latest)) eqn:Tl; [|easy].
    destruct (truthy (avg_rank previous)) eqn:Tp; [|easy].
    cbn [andb] in H.
    destruct (gtb (num (avg_rank latest) - num (avg_rank previous)) 3) eqn:D;
      [|easy].
    exists latest, previous, rest.
    split; [reflexivity|]. split; [exact Tl|]. split; [exact Tp|].
    now apply gtb_lt.
Qed.

Lemma urgent_score (latest previous : Scan) (rest : list Scan) :
  truthy (avg_rank latest) = true ->
  truthy (avg_rank previous) = true ->
  (3 < num (avg_rank latest) - num (avg_rank previous))%Q ->
  3 <= score_of (latest :: previous :: rest).
Proof.
  intros Tl Tp D. unfold score_of, risk_of, rule_single, rule_poor,
    rule_dropped, second_rank.
  change (2 <=? length (latest :: previous :: rest))%nat with true.
  change (length (latest :: previous :: rest) =? 1)%nat with false.
  simpl nth_error. cbv iota. rewrite Tl, Tp. cbn [andb].
  assert (G : gtb (num (avg_rank latest) - num (avg_rank previous)) 2 = true).
  { apply gtb_lt. lra. }
  rewrite G.
  destruct (gtb (num (avg_rank latest)) 15); simpl; lia.
Qed.

Lemma urgent_status (latest previous : Scan) (rest : list Scan) :
  truthy (avg_rank latest) = true ->
  truthy (avg_rank previous) = true ->
  (3 < num (avg_rank latest) - num (avg_rank previous))%Q ->
  fst (classify (latest :: previous :: rest) (avg_rank latest)) = Declining.
Proof.
  intros Tl Tp D. unfold classify, second_rank.
  change (2 <=? length (latest :: previous :: rest))%nat with true.
  simpl nth_error. cbv iota zeta. rewrite Tl, Tp. cbn [andb].
  assert (G : gtb (num (avg_rank previous) - num (avg_rank latest)) (1 # 2)
              = false).
  { apply gtb_le. lra. }
  assert (L : ltb (num (avg_rank previous) - num (avg_rank latest))
                (- (1 # 2)) = true).
  { apply ltb_lt. lra. }
  now rewrite G, L.
Qed.

Lemma urgent_In (api : string -> Scan) (results : list Scan)
  (p : Priorities) (t : Task) :
  prioritize_today api results = Ok p ->
  In t (urgent p) ->
  exists g latest previous rest,
    group_scans results = Ok g
    /\ In (client t, latest :: previous :: rest) (Object_entries g)
    /\ truthy (avg_rank latest) = true
    /\ truthy (avg_rank previous) = true
    /\ (3 < num (avg_rank latest) - num (avg_rank previous))%Q.
Proof.
  intros H Ht. destruct (prioritize_today_groups _ _ _ H) as [g [G ->]].
  cbn [urgent] in Ht. apply In_firstn, in_flat_map in Ht.
  destruct Ht as [[k scans] [Hin Ht]].
  apply urgent_of_In in Ht. simpl in Ht.
  destruct Ht as [-> [latest [previous [rest [-> [Tl [Tp D]]]]]]].
  exists g, latest, previous, rest. repeat split; assumption.
Qed.

(** X6: a business in the urgent bucket of [prioritize:today] is also
    on the list of [at-risk:clients] for the same listing, with a risk
    score of at least 3. *)
Theorem urgent_is_at_risk (api : string -> Scan) (results : list Scan)
  (p : Priorities) (t : Task) :
  prioritize_today api results = Ok p ->
  In t (urgent p) ->
  exists out e,
    at_risk_clients results = Ok out
    /\ In e out
    /\ business_name e = client t
    /\ 3 <= risk_score e.
Proof.
  intros H Ht.
  destruct (urgent_In _ _ _ _ H Ht)
    as [g [latest [previous [rest [G [Hin [Tl [Tp D]]]]]]]].
  pose proof (urgent_score latest previous rest Tl Tp D) as S.
  assert (P : 0 < score_of (snd (client t, latest :: previous :: rest)))
    by (cbn [snd]; lia).
  destruct (risk_entry_positive _ P) as [e [He Hk]].
  exists (sort by_risk (flat_map risk_entry (Object_entries g))), e.
  split; [now apply at_risk_clients_eq|].
  assert (Hr : In e (risk_entry (client t, latest :: previous :: rest)))
    by (rewrite He; now left).
  split.
  - apply sort_In, in_flat_map. eexists. split; [exact Hin | exact Hr].
  - apply risk_entry_In in Hr. cbn [fst snd] in Hr.
    destruct Hr as [Hn [Hs _]]. split; [exact Hn | lia].
Qed.

Lemma urgent_is_at_risk_witness :
  prioritize_today (Sample.details Sample.portfolio) Sample.portfolio
  = Ok sample_priorities
  /\ exists out e,
       at_risk_clients Sample.portfolio = Ok out
       /\ In e out
       /\ business_name e = "Dent"
       /\ 3 <= risk_score e.
Proof.
  assert (H : prioritize_today (Sample.details Sample.portfolio)
                Sample.portfolio = Ok sample_priorities)
    by (vm_compute; reflexivity).
  split; [exact H|].
  exact (urgent_is_at_risk _ _ _ _ H (or_introl eq_refl)).
Defined.

(** X7: a business in the urgent bucket of [prioritize:today] has the
    status [declining] in the summary of [portfolio:summary] for the
    same listing. *)
Theorem urgent_is_declining (api : string -> Scan) (results : list Scan)
  (p : Priorities) (t : Task) :
  prioritize_today api results = Ok p ->
  In t (urgent p) ->
  exists s c,
    portfolio_summary results = Ok s
    /\ In c (clients s)
    /\ client_name c = client t
    /\ status c = Declining.
Proof.
  intros H Ht.
  destruct (urgent_In _ _ _ _ H Ht)
    as [g [latest [previous [rest [G [Hin [Tl [Tp D]]]]]]]].
  assert (Hg : groupable results = true)
    by (apply group_scans_groupable; now exists g).
  apply portfolio_summary_total in Hg. destruct Hg as [s Hs].
  destruct (portfolio_summary_clients _ _ Hs) as [g' [G' Hc]].
  rewrite G in G'. injection G' as <-.
  exists s. eexists. split; [exact Hs|]. split.
  - rewrite Hc. apply sort_In, in_flat_map.
    exists (client t, latest :: previous :: rest). split; [exact Hin|].
    unfold client_of. cbn [fst snd]. left. reflexivity.
  - cbn [client_name status]. split; [reflexivity|].
    now apply urgent_status.
Qed.

Lemma urgent_is_declining_witness :
  prioritize_today (Sample.details Sample.portfolio) Sample.portfolio
  = Ok sample_priorities
  /\ exists s c,
       portfolio_summary Sample.portfolio = Ok s
       /\ In c (clients s)
       /\ client_name c = "Dent"
       /\ status c = Declining.
Proof.
  assert (H : prioritize_today (Sample.details Sample.portfolio)
                Sample.portfolio = Ok sample_priorities)
    by (vm_compute; reflexivity).
  split; [exact H|].
  exact (urgent_is_declining _ _ _ _ H (or_introl eq_refl)).
Defined.

(** ** Rounding to one decimal *)

Lemma floor_unique (x : Q) (n : Z) :
  (inject_Z n <= x)%Q -> (x < inject_Z (n + 1))%Q -> Qfloor x = n.
Proof.
  intros Hlo Hhi.
  pose proof (Qfloor_resp_le _ _ Hlo) as L. rewrite Qfloor_Z in L.
  pose proof (Qfloor_le x) as F.
  assert (U : (inject_Z (Qfloor x) < inject_Z (n + 1))%Q)
    by (eapply Qle_lt_trans; eassumption).
  rewrite <- Zlt_Qlt in U. lia.
Qed.

Lemma Math_round_bounds (x : Q) :
  (x - (1 # 2) < inject_Z (Math_round x))%Q
  /\ (inject_Z (Math_round x) <= x + (1 # 2))%Q.
Proof.
  unfold Math_round. split.
  - pose proof (Qlt_floor (x + (1 # 2))) as H.
    rewrite inject_Z_plus in H. change (inject_Z 1) with 1%Q in H. lra.
  - apply Qfloor_le.
Qed.

Lemma Math_round_Z (z : Z) : Math_round (inject_Z z) = z.
Proof.
  unfold Math_round. apply floor_unique.
  - lra.
  - rewrite inject_Z_plus. change (inject_Z 1) with 1%Q. lra.
Qed.

Lemma Math_round_le (x y : Q) :
  (x <= y)%Q -> Math_round x <= Math_round y.
Proof.
  intros H. unfold Math_round. apply Qfloor_resp_le. lra.
Qed.

Lemma Math_round_comp (x y : Q) : (x == y)%Q -> Math_round x = Math_round y.
Proof.
  intros H. unfold Math_round. apply Qfloor_comp. now rewrite H.
Qed.


Lemma tenths (n : Z) : (n # 10 == inject_Z n * (1 # 10))%Q.
Proof. rewrite (Qmake_Qdiv n 10). field. Qed.

Lemma round1_le (x y : Q) : (x <= y)%Q -> (round1 x <= round1 y)%Q.
Proof.
  intros H. unfold round1.
  rewrite (tenths (Math_round (x * 10))), (tenths (Math_round (y * 10))).
  assert (L : Math_round (x * 10) <= Math_round (y * 10))
    by (apply Math_round_le; lra).
  rewrite Zle_Qle in L. lra.
Qed.

(** X8: rounding to one decimal, [Math.round(x * 10) / 10], gives a
    number within 0.05 of [x] (a tie going up), preserves the order, and
    leaves a number that is already rounded unchanged. *)
Theorem round1_properties (x y : Q) :
  (x - (1 # 20) < round1 x)%Q
  /\ (round1 x <= x + (1 # 20))%Q
  /\ round1 (round1 x) = round1 x
  /\ ((x <= y)%Q -> (round1 x <= round1 y)%Q).
Proof.
  destruct (Math_round_bounds (x * 10)) as [Lo Hi].
  split; [|split; [|split]].
  - unfold round1. rewrite (tenths (Math_round (x * 10))). lra.
  - unfold round1. rewrite (tenths (Math_round (x * 10))). lra.
  - unfold round1. f_equal.
    transitivity (Math_round (inject_Z (Math_round (x * 10)))).
    + apply Math_round_comp.
      rewrite (tenths (Math_round (x * 10))). field.
    + apply Math_round_Z.
  - apply round1_le.
Qed.

Lemma round1_properties_witness :
  (42 # 10 <= 85 # 10)%Q /\ (round1 (42 # 10) <= round1 (85 # 10))%Q.
Proof.
  assert (H : (42 # 10 <= 85 # 10)%Q) by discriminate.
  split; [exact H|].
  exact (proj2 (proj2 (proj2 (round1_properties (42 # 10) (85 # 10)))) H).
Defined.


(** ** The quick-win listing *)

(** The business met first keeps its place: what [byBusiness] holds
    after the loop of [quick-wins:find]. *)
Lemma forEach_latest_own (xs : list Scan) (g : object Scan) :
  exists g', forEach latest_body xs g = Ok g'
    /\ (NoDup (map fst g) -> NoDup (map fst g'))
    /\ forall k,
         own k g' = match own k g with
                    | Some s => Some s
                    | None => if inherited k then None
                              else find (name_is k) xs
                    end.
Proof.
  revert g. induction xs as [|x xs IH]; intros g.
  - exists g. split; [reflexivity|]. split; [tauto|]. intros k. simpl.
    destruct (own k g); [reflexivity|]. now destruct (inherited k).
  - assert (Skip : forall k, own k g = None -> inherited k = false ->
                   (own (business_name_of x) g <> None
                    \/ inherited (business_name_of x) = true) ->
                   find (name_is k) (x :: xs) = find (name_is k) xs).
    { intros k Hk Ik Hx. simpl. unfold name_is at 1.
      destruct (String.eqb (business_name_of x) k) eqn:E; [|reflexivity].
      apply String.eqb_eq in E. subst k. destruct Hx; congruence. }
    simpl forEach. unfold latest_body at 1.
    destruct (own (business_name_of x) g) as [s|] eqn:O; simpl bind.
    + destruct (IH g) as [g' [Hg' [Hnd Hown]]]. exists g'.
      split; [exact Hg'|]. split; [exact Hnd|].
      intros k. rewrite Hown. destruct (own k g) eqn:Hk; [reflexivity|].
      destruct (inherited k) eqn:Ik; [reflexivity|].
      symmetry. apply Skip; try assumption. left. congruence.
    + destruct (inherited (business_name_of x)) eqn:I; simpl bind.
      * destruct (IH g) as [g' [Hg' [Hnd Hown]]]. exists g'.
        split; [exact Hg'|]. split; [exact Hnd|].
        intros k. rewrite Hown. destruct (own k g) eqn:Hk; [reflexivity|].
        destruct (inherited k) eqn:Ik; [reflexivity|].
        symmetry. apply Skip; try assumption. now right.
      * destruct (IH (set (business_name_of x) x g)) as [g' [Hg' [Hnd Hown]]].
        exists g'. split; [exact Hg'|].
        split; [intros N; apply Hnd; now apply NoDup_set|].
        intros k. rewrite Hown, own_set.
        simpl find. unfold name_is at 2. rewrite (String.eqb_sym k).
        destruct (String.eqb (business_name_of x) k) eqn:E.
        -- apply String.eqb_eq in E. subst k. now rewrite O, I.
        -- reflexivity.
Qed.

Lemma forEach_quick_wins (api : string -> Scan)
  (entries : list (string * Scan)) (quickWins : list QuickWin) :
  forEach (quick_wins_body api) entries quickWins
  = Ok (quickWins ++ flat_map (wins_of api) entries).
Proof.
  revert quickWins. induction entries as [|[k scan] entries IH];
    intros quickWins.
  - simpl. now rewrite app_nil_r.
  - simpl forEach. unfold quick_wins_body at 1. simpl bind.
    rewrite IH. unfold wins_of at 2. simpl. now rewrite <- app_assoc.
Qed.



(** [quick-wins:find] in one equation. *)
Lemma quick_wins_find_eq (api : string -> Scan) (lower : string -> string)
  (businessFilter : option string) (results : list Scan) :
  exists byBusiness,
    forEach latest_body (quick_win_scans lower businessFilter results) []
    = Ok byBusiness
    /\ NoDup (map fst byBusiness)
    /\ (forall k,
          own k byBusiness
          = if inherited k then None
            else find (name_is k)
                   (quick_win_scans lower businessFilter results))
    /\ quick_wins_find api lower businessFilter results
       = Ok {| quick_wins_shown :=
                 firstn 20
                   (sort by_current_rank
                      (flat_map (wins_of api) (Object_entries byBusiness)));
               total :=
                 Z.of_nat
                   (length
                      (sort by_current_rank
                         (flat_map (wins_of api)
                            (Object_entries byBusiness)))) |}.
Proof.
  destruct (forEach_latest_own
              (quick_win_scans lower businessFilter results) [])
    as [g [Hg [Hnd Hown]]].
  exists g. split; [exact Hg|]. split; [exact (Hnd (NoDup_nil _))|].
  split; [exact Hown|].
  unfold quick_wins_find. fold (quick_win_scans lower businessFilter results).
  rewrite Hg. simpl bind. rewrite forEach_quick_wins. reflexivity.
Qed.


Lemma quick_wins_In (api : string -> Scan) (lower : string -> string)
  (businessFilter : option string) (results : list Scan) (out : QuickWins)
  (e : QuickWin) :
  quick_wins_find api lower businessFilter results = Ok out ->
  In e (quick_wins_shown out) ->
  exists scan kw,
    inherited (qw_business_name e) = false
    /\ find (name_is (qw_business_name e))
         (quick_win_scans lower businessFilter results) = Some scan
    /\ In kw (keyword_results (api (uuid scan)))
    /\ quick_win kw = true
    /\ e = quick_win_entry (qw_business_name e) kw.
Proof.
  intros H He.
  destruct (quick_wins_find_eq api lower businessFilter results)
    as [g [_ [Hnd [Hown E]]]].
  assert (Hs : quick_wins_shown out
               = firstn 20
                   (sort by_current_rank
                      (flat_map (wins_of api) (Object_entries g))))
    by (rewrite E in H; now injection H as <-).
  rewrite Hs in He. clear Hs.
  apply In_firstn, sort_In, in_flat_map in He.
  destruct He as [[k scan] [Hin He]].
  unfold wins_of in He. cbn [fst snd] in He.
  apply in_map_iff in He. destruct He as [kw [<- Hkw]].
  apply filter_In in Hkw. destruct Hkw as [Hkw Hq].
  cbn [quick_win_entry qw_business_name].
  apply (proj1 (entries_In _ _ _)) in Hin.
  pose proof (In_own _ _ _ _ Hnd Hin) as O.
  rewrite Hown in O. exists scan, kw.
  destruct (inherited k); [discriminate|]. repeat split; assumption.
Qed.




Lemma quick_win_scans_In (lower : string -> string)
  (businessFilter : option string) (results : list Scan) (scan : Scan) :
  In scan (quick_win_scans lower businessFilter results) -> In scan results.
Proof.
  unfold quick_win_scans.
  destruct (truthy_str (option_map lower businessFilter)); [|tauto].
  intros H. now apply filter_In in H.
Qed.

(** X11: every entry that [quick-wins:find] shows comes from a keyword
    of the detail of the first scan, in the listing, of its business
    (among the scans that pass the filter); later scans of the business
    are not looked at, and a business whose name is one that object
    literals inherit, such as [constructor], is never listed. *)
Theorem quick_wins_from_first_scan (api : string -> Scan)
  (lower : string -> string) (businessFilter : option string)
  (results : list Scan) (out : QuickWins) (e : QuickWin) :
  quick_wins_find api lower businessFilter results = Ok out ->
  In e (quick_wins_shown out) ->
  inherited (qw_business_name e) = false
  /\ exists scan kw,
       find (name_is (qw_business_name e))
         (quick_win_scans lower businessFilter results) = Some scan
       /\ In scan results
       /\ business_name_of scan = qw_business_name e
       /\ In kw (keyword_results (api (uuid scan)))
       /\ quick_win kw = true
       /\ e = quick_win_entry (qw_business_name e) kw.
Proof.
  intros H He.
  destruct (quick_wins_In _ _ _ _ _ _ H He)
    as [scan [kw [I [F [Hkw [Hq E]]]]]].
  split; [exact I|]. exists scan, kw. split; [exact F|].
  pose proof (find_some _ _ F) as [Hin Hn].
  split; [now apply quick_win_scans_In in Hin|].
  split; [now apply String.eqb_eq in Hn|].
  repeat split; assumption.
Qed.

Lemma quick_wins_from_first_scan_witness :
  quick_wins_find (Sample.details Sample.portfolio) Sample.lower None
    Sample.portfolio = Ok sample_quick_wins
  /\ inherited "Bolt" = false
  /\ exists scan kw,
       find (name_is "Bolt") (quick_win_scans Sample.lower None
                                Sample.portfolio) = Some scan
       /\ In scan Sample.portfolio
       /\ business_name_of scan = "Bolt"
       /\ In kw (keyword_results
                   (Sample.details Sample.portfolio (uuid scan)))
       /\ quick_win kw = true.
Proof.
  assert (H : quick_wins_find (Sample.details Sample.portfolio) Sample.lower
                None Sample.portfolio = Ok sample_quick_wins)
    by (vm_compute; reflexivity).
  split; [exact H|].
  destruct (quick_wins_from_first_scan _ _ _ _ _ _ H (or_introl eq_refl))
    as [I [scan [kw [F [Hin [Hn [Hkw [Hq _]]]]]]]].
  split; [exact I|]. exists scan, kw. repeat split; assumption.
Defined.

(** ** The wins and the drops of the client report *)

Lemma truthy_Some (x : option Q) :
  truthy x = true -> exists q, x = Some q /\ ~ (q == 0)%Q.
Proof.
  destruct x as [q|]; simpl; [|discriminate].
  intros H. exists q. split; [reflexivity|].
  intros E. apply Qeq_bool_iff in E. rewrite E in H. discriminate.
Qed.

(** A rank that [prevKwRanks] holds was assigned from a keyword of the
    previous scan. *)
Lemma fold_assign_own (kws : list KeywordResult) (m : KwRanks)
  (k : string) (v : option Q) :
  own k (own_ranks (fold_left assign_rank kws m)) = Some v ->
  own k (own_ranks m) = Some v
  \/ exists kwp, In kwp kws /\ keyword kwp = k /\ kw_avg_rank kwp = v.
Proof.
  revert m. induction kws as [|kw kws IH]; simpl; intros m H; [now left|].
  apply IH in H. destruct H as [H|[kwp [Hin [Hk Hv]]]].
  - unfold assign_rank in H.
    destruct (String.eqb (keyword kw) "__proto__" && has_prototype m).
    + destruct (kw_avg_rank kw); simpl in H; now left.
    + simpl in H. rewrite own_set in H.
      destruct (String.eqb k (keyword kw)) eqn:E; [|now left].
      apply String.eqb_eq in E. injection H as <-.
      right. exists kw. repeat split; [now left | now symmetry].
  - right. exists kwp. repeat split; [now right | assumption | assumption].
Qed.

Lemma is_win_more (m : KwRanks) (kw : KeywordResult)
  (kws : list KeywordResult) (j : json) :
  is_win m kws j -> is_win m (kw :: kws) j.
Proof.
  intros [k [p [c [Hin H]]]]. exists k, p, c. split; [now right | exact H].
Qed.

Lemma is_drop_more (m : KwRanks) (kw : KeywordResult)
  (kws : list KeywordResult) (j : json) :
  is_drop m kws j -> is_drop m (kw :: kws) j.
Proof.
  intros [k [p [c [Hin H]]]]. exists k, p, c. split; [now right | exact H].
Qed.

Lemma compare_body_cases (m : KwRanks) (st : list json * list json)
  (kw : KeywordResult) :
  compare_body m st kw = st
  \/ (exists j, is_win m [kw] j
                /\ compare_body m st kw = (fst st ++ [j], snd st))
  \/ (exists j, is_drop m [kw] j
                /\ compare_body m st kw = (fst st, snd st ++ [j])).
Proof.
  unfold compare_body.
  destruct (own (keyword kw) (own_ranks m)) as [prev|] eqn:O; [|now left].
  destruct (truthy prev) eqn:Tp; [|now left].
  destruct (truthy (kw_avg_rank kw)) eqn:Tc; [|now left].
  cbn [andb].
  destruct (truthy_Some _ Tp) as [p [-> Np]].
  destruct (truthy_Some _ Tc) as [c [Ec Nc]]. rewrite Ec. cbn [num].
  destruct (gtb (p - c) 0) eqn:G.
  - right. left. eexists. split; [|reflexivity].
    exists kw, p, c. apply gtb_lt in G.
    repeat split; try assumption; [now left | lra].
  - destruct (ltb (p - c) 0) eqn:L; [|now left].
    right. right. eexists. split; [|reflexivity].
    exists kw, p, c. apply ltb_lt in L.
    repeat split; try assumption; [now left | lra].
Qed.

Lemma fold_compare (m : KwRanks) (kws : list KeywordResult)
  (st : list json * list json) :
  (forall j, In j (fst (fold_left (compare_body m) kws st)) ->
             In j (fst st) \/ is_win m kws j)
  /\ (forall j, In j (snd (fold_left (compare_body m) kws st)) ->
                In j (snd st) \/ is_drop m kws j)
  /\ (length (fst (fold_left (compare_body m) kws st))
      + length (snd (fold_left (compare_body m) kws st))
      <= length (fst st) + length (snd st) + length kws)%nat.
Proof.
  revert st. induction kws as [|kw kws IH]; intros st.
  - simpl. repeat split; try tauto. lia.
  - simpl fold_left. destruct (IH (compare_body m st kw)) as [Hw [Hd Hl]].
    assert (W1 : forall j, is_win m [kw] j -> is_win m (kw :: kws) j).
    { intros j [k [p [c [[<-|[]] H]]]]. exists kw, p, c.
      split; [now left | exact H]. }
    assert (D1 : forall j, is_drop m [kw] j -> is_drop m (kw :: kws) j).
    { intros j [k [p [c [[<-|[]] H]]]]. exists kw, p, c.
      split; [now left | exact H]. }
    destruct (compare_body_cases m st kw) as [E|[[j0 [J E]]|[j0 [J E]]]];
      rewrite E in Hw, Hd, Hl; cbn [fst snd] in Hw, Hd, Hl;
      rewrite E; (split; [|split]).
    + intros j Hj. destruct (Hw j Hj) as [H|H]; [now left|].
      right. now apply is_win_more.
    + intros j Hj. destruct (Hd j Hj) as [H|H]; [now left|].
      right. now apply is_drop_more.
    + simpl length. lia.
    + intros j Hj. destruct (Hw j Hj) as [H|H].
      * apply in_app_or in H. destruct H as [H|[<-|[]]]; [now left|].
        right. now apply W1.
      * right. now apply is_win_more.
    + intros j Hj. destruct (Hd j Hj) as [H|H]; [now left|].
      right. now apply is_drop_more.
    + rewrite length_app in Hl. simpl length in *. lia.
    + intros j Hj. destruct (Hw j Hj) as [H|H]; [now left|].
      right. now apply is_win_more.
    + intros j Hj. destruct (Hd j Hj) as [H|H].
      * apply in_app_or in H. destruct H as [H|[<-|[]]]; [now left|].
        right. now apply D1.
      * right. now apply is_drop_more.
    + rewrite length_app in Hl. simpl length in *. lia.
Qed.

(** The keyword of the previous scan behind a rank of [prevKwRanks]. *)
Lemma previous_rank (kws : list KeywordResult) (k : string) (p : Q) :
  own k (own_ranks (fold_left assign_rank kws
                      {| own_ranks := []; has_prototype := true |}))
  = Some (Some p) ->
  exists kwp, In kwp kws /\ keyword kwp = k /\ kw_avg_rank kwp = Some p.
Proof.
  intros H. apply fold_assign_own in H. destruct H as [H|H]; [discriminate|].
  exact H.
Qed.

Lemma client_report_wins_drops_fields (api : string -> Scan)
  (lower : string -> string) (businessName : string)
  (results : list Scan) (doc : json) (latest : Scan) :
  client_report api lower businessName results = Printed doc ->
  hd_error (client_scans lower businessName results) = Some latest ->
  field "wins" doc
  = Some (JArr (fst (wins_drops api (client_scans lower businessName results)
                       (api (uuid latest)))))
  /\ field "drops" doc
     = Some (JArr (snd (wins_drops api
                          (client_scans lower businessName results)
                          (api (uuid latest))))).
Proof.
  unfold client_report, client_scans.
  destruct (String.eqb businessName EmptyString); [discriminate|].
  destruct (filter (name_matches lower (lower businessName)) results)
    as [|l rest] eqn:F; [discriminate|].
  simpl hd_error. intros H [= ->].
  destruct (wins_drops api (latest :: rest) (api (uuid latest))) as [w d].
  destruct (truthy_str (public_share_token (api (uuid latest))));
    destruct (business latest); injection H as <-; simpl field;
    rewrite ?own_set; split; reflexivity.
Qed.

(** X12: in the client report a keyword of the latest scan is a win
    when the previous scan has a rank for it and its rank is now
    smaller, a drop when its rank is now greater, both ranks being
    present and not 0; every entry of [wins] and [drops] is of that
    kind, with the two ranks in [from] and [to], and there are no more
    entries than keywords in the latest scan. *)
Theorem client_report_wins_drops (api : string -> Scan)
  (lower : string -> string) (businessName : string)
  (results : list Scan) (doc : json) (latest : Scan)
  (wins drops : list json) :
  client_report api lower businessName results = Printed doc ->
  hd_error (client_scans lower businessName results) = Some latest ->
  field "wins" doc = Some (JArr wins) ->
  field "drops" doc = Some (JArr drops) ->
  (forall j, In j wins ->
     exists kw previous kwp p c,
       In kw (keyword_results (api (uuid latest)))
       /\ nth_error (client_scans lower businessName results) 1
          = Some previous
       /\ In kwp (keyword_results (api (uuid previous)))
       /\ keyword kwp = keyword kw
       /\ kw_avg_rank kwp = Some p /\ kw_avg_rank kw = Some c
       /\ ~ (p == 0)%Q /\ ~ (c == 0)%Q /\ (c < p)%Q
       /\ j = win_json (keyword kw) p c (p - c))
  /\ (forall j, In j drops ->
        exists kw previous kwp p c,
          In kw (keyword_results (api (uuid latest)))
          /\ nth_error (client_scans lower businessName results) 1
             = Some previous
          /\ In kwp (keyword_results (api (uuid previous)))
          /\ keyword kwp = keyword kw
          /\ kw_avg_rank kwp = Some p /\ kw_avg_rank kw = Some c
          /\ ~ (p == 0)%Q /\ ~ (c == 0)%Q /\ (p < c)%Q
          /\ j = drop_json (keyword kw) p c (p - c))
  /\ (length wins + length drops
      <= length (keyword_results (api (uuid latest))))%nat.
Proof.
  intros H Hl Hw Hd.
  destruct (client_report_wins_drops_fields _ _ _ _ _ _ H Hl) as [Fw Fd].
  rewrite Fw in Hw. rewrite Fd in Hd. injection Hw as <-. injection Hd as <-.
  unfold wins_drops.
  destruct (client_scans lower businessName results)
    as [|first [|previous rest]] eqn:CS.
  - simpl. repeat split; try tauto. lia.
  - simpl. repeat split; try tauto. lia.
  - simpl nth_error.
    set (m := fold_left assign_rank (keyword_results (api (uuid previous)))
                {| own_ranks := []; has_prototype := true |}).
    destruct (fold_compare m (keyword_results (api (uuid latest))) ([], []))
      as [Iw [Id Il]].
    split; [|split].
    + intros j Hj. destruct (Iw j Hj) as [[]|[kw [p [c [Hin [O [Ec [Np [Nc [Lt ->]]]]]]]]]].
      destruct (previous_rank _ _ _ O) as [kwp [Hp [Hk Ep]]].
      exists kw, previous, kwp, p, c. repeat split; assumption.
    + intros j Hj. destruct (Id j Hj) as [[]|[kw [p [c [Hin [O [Ec [Np [Nc [Lt ->]]]]]]]]]].
      destruct (previous_rank _ _ _ O) as [kwp [Hp [Hk Ep]]].
      exists kw, previous, kwp, p, c. repeat split; assumption.
    + simpl in Il. exact Il.
Qed.

Lemma client_report_wins_drops_witness :
  client_report (Sample.details acme_listing) Sample.lower "acme" acme_listing
  = Printed acme_report
  /\ exists kw previous kwp p c,
       In kw (keyword_results
                (Sample.details acme_listing (uuid Sample.acme_feb)))
       /\ nth_error (client_scans Sample.lower "acme" acme_listing) 1
          = Some previous
       /\ In kwp (keyword_results
                    (Sample.details acme_listing (uuid previous)))
       /\ keyword kwp = keyword kw
       /\ kw_avg_rank kwp = Some p /\ kw_avg_rank kw = Some c
       /\ (c < p)%Q
       /\ win_json "plumber near me" (85 # 10) (42 # 10) ((85 # 10) - (42 # 10))
          = win_json (keyword kw) p c (p - c).
Proof.
  assert (H1 : client_report (Sample.details acme_listing) Sample.lower
                 "acme" acme_listing = Printed acme_report)
    by (vm_compute; reflexivity).
  assert (H2 : hd_error (client_scans Sample.lower "acme" acme_listing)
               = Some Sample.acme_feb) by reflexivity.
  split; [exact H1|].
  destruct (proj1 (client_report_wins_drops _ _ _ _ _ _
                     [win_json "plumber near me" (85 # 10) (42 # 10)
                        ((85 # 10) - (42 # 10))] []
                     H1 H2 eq_refl eq_refl) _ (or_introl eq_refl))
    as [kw [previous [kwp [p [c [A [B [C [D [E [F [_ [_ [G I]]]]]]]]]]]]]].
  exists kw, previous, kwp, p, c. repeat split; assumption.
Defined.

(** ** [recommendations:get] *)

Lemma leb_le (x y : Q) : leb x y = true <-> (x <= y)%Q.
Proof. apply Qle_bool_iff. Qed.

Lemma leb_gt (x y : Q) : leb x y = false <-> (y < x)%Q.
Proof.
  unfold leb. split.
  - intros H. apply Qnot_le_lt. intros L. apply Qle_bool_iff in L. congruence.
  - intros H. destruct (Qle_bool x y) eqn:E; [|reflexivity].
    apply Qle_bool_iff in E. exfalso. apply (Qlt_not_le _ _ H E).
Qed.

(** The actions of the recommendations for a scan. *)
Lemma recommend_actions (latest : Scan) :
  map advice_action (recommend latest)
  = (if gtb (num (avg_rank latest)) 10 then ["Use SuperBoost"] else [])
    ++ (if gtb (num (avg_rank latest)) 5 && leb (num (avg_rank latest)) 10
        then ["Use LocalBoost"] else [])
    ++ (if (length (keywords latest) <? 5)%nat
        then ["Track more keywords"] else [])
    ++ (if leb (num (avg_rank latest)) 5
           && negb (length (keywords latest) <? 5)%nat
        then ["Maintain with LocalBoost"] else []).
Proof.
  unfold recommend. cbv zeta.
  destruct (gtb (num (avg_rank latest)) 10) eqn:G10;
  destruct (gtb (num (avg_rank latest)) 5) eqn:G5;
  destruct (leb (num (avg_rank latest)) 10) eqn:L10;
  destruct (length (keywords latest) <? 5)%nat eqn:K;
  destruct (leb (num (avg_rank latest)) 5) eqn:L5;
  try reflexivity;
  exfalso;
  repeat match goal with
         | H : gtb _ _ = true |- _ => apply gtb_lt in H
         | H : gtb _ _ = false |- _ => apply gtb_le in H
         | H : leb _ _ = true |- _ => apply leb_le in H
         | H : leb _ _ = false |- _ => apply leb_gt in H
         end; lra.
Qed.

(** X13: for a business with a scan, [recommendations:get] gives one or
    two recommendations, never none: SuperBoost for an average rank
    above 10, LocalBoost for a rank above 5 and up to 10, more keywords
    when fewer than 5 are tracked, and the advice to maintain, alone,
    exactly when the rank is at most 5 (the rank [null] counting as 0)
    and at least 5 keywords are tracked. *)
Theorem recommendations_shape (lower : string -> string)
  (businessName : string) (results : list Scan)
  (n : option string) (c : option Q) (recs : list Advice) :
  recommendations_get lower businessName results = AdviceFor n c recs ->
  exists latest,
    hd_error (client_scans lower businessName results) = Some latest
    /\ recs = recommend latest
    /\ (1 <= length recs <= 2)%nat
    /\ (In "Use SuperBoost" (map advice_action recs)
        <-> (10 < num (avg_rank latest))%Q)
    /\ (In "Use LocalBoost" (map advice_action recs)
        <-> (5 < num (avg_rank latest) /\ num (avg_rank latest) <= 10)%Q)
    /\ (In "Track more keywords" (map advice_action recs)
        <-> (length (keywords latest) < 5)%nat)
    /\ (In "Maintain with LocalBoost" (map advice_action recs)
        <-> (num (avg_rank latest) <= 5)%Q
            /\ (5 <= length (keywords latest))%nat)
    /\ (In "Maintain with LocalBoost" (map advice_action recs) ->
        length recs = 1%nat).
Proof.
  unfold recommendations_get, client_scans.
  destruct (String.eqb businessName EmptyString); [discriminate|].
  destruct (filter (name_matches lower (lower businessName)) results)
    as [|latest rest]; [discriminate|].
  intros [= <- <- <-]. exists latest. split; [reflexivity|].
  split; [reflexivity|].
  rewrite <- (length_map advice_action), recommend_actions.
  destruct (gtb (num (avg_rank latest)) 10) eqn:G10;
  destruct (gtb (num (avg_rank latest)) 5) eqn:G5;
  destruct (leb (num (avg_rank latest)) 10) eqn:L10;
  destruct (length (keywords latest) <? 5)%nat eqn:K;
  destruct (leb (num (avg_rank latest)) 5) eqn:L5;
  repeat match goal with
         | H : gtb _ _ = true |- _ => apply gtb_lt in H
         | H : gtb _ _ = false |- _ => apply gtb_le in H
         | H : leb _ _ = true |- _ => apply leb_le in H
         | H : leb _ _ = false |- _ => apply leb_gt in H
         | H : (_ <? _)%nat = true |- _ => apply Nat.ltb_lt in H
         | H : (_ <? _)%nat = false |- _ => apply Nat.ltb_ge in H
         end;
  try (exfalso; lra);
  cbn [andb negb app length map In];
  repeat split; intros;
  repeat match goal with
         | H : _ \/ _ |- _ => destruct H
         | H : _ /\ _ |- _ => destruct H
         | H : False |- _ => destruct H
         | H : @eq string _ _ |- _ => discriminate H
         end;
  try lia; try lra; auto.
Qed.

Lemma recommendations_shape_witness :
  recommendations_get Sample.lower "dent" Sample.portfolio
  = AdviceFor (Some "Dent") (Some (180 # 10)) dent_advice
  /\ exists latest,
       hd_error (client_scans Sample.lower "dent" Sample.portfolio)
       = Some latest
       /\ dent_advice = recommend latest
       /\ (1 <= length dent_advice <= 2)%nat.
Proof.
  assert (H : recommendations_get Sample.lower "dent" Sample.portfolio
              = AdviceFor (Some "Dent") (Some (180 # 10)) dent_advice)
    by (vm_compute; reflexivity).
  split; [exact H|].
  destruct (recommendations_shape _ _ _ _ _ _ H) as [latest [A [B [C _]]]].
  exists latest. repeat split; assumption || apply C.
Defined.

Lemma Qle_bool_comp_l (x y c : Q) :
  (x == y)%Q -> Qle_bool x c = Qle_bool y c.
Proof.
  intros E. apply eq_true_iff_eq. rewrite !Qle_bool_iff, E. tauto.
Qed.

Lemma Qle_bool_comp_r (x y c : Q) :
  (x == y)%Q -> Qle_bool c x = Qle_bool c y.
Proof.
  intros E. apply eq_true_iff_eq. rewrite !Qle_bool_iff, E. tauto.
Qed.

Lemma show_round1_comp (x y : Q) :
  (x == y)%Q -> show_round1 x = show_round1 y.
Proof.
  intros E. unfold show_round1. f_equal. apply Math_round_comp.
  now rewrite E.
Qed.

Lemma num_zero_as_null (x : option Q) : (num (zero_as_null x) == num x)%Q.
Proof.
  unfold zero_as_null. destruct x as [q|]; simpl; [|reflexivity].
  destruct (Qeq_bool q 0) eqn:E; simpl; [|reflexivity].
  apply Qeq_bool_iff in E. now rewrite E.
Qed.

Lemma recommend_zero_as_null (latest : Scan) :
  recommend (scan_zero_as_null latest) = recommend latest.
Proof.
  unfold recommend. cbn [scan_zero_as_null avg_rank keywords].
  pose proof (num_zero_as_null (avg_rank latest)) as E.
  unfold gtb, leb.
  rewrite !(Qle_bool_comp_l _ _ _ E), (show_round1_comp _ _ E).
  reflexivity.
Qed.

(** X14: [recommendations:get] does not tell a rank of 0 from the rank
    [null]; a business without rank that tracks at least 5 keywords is
    told that its rankings are great, with an average of 0. *)
Theorem recommendations_zero_as_null (lower : string -> string)
  (businessName : string) (results : list Scan) :
  recommendations_get lower businessName (map scan_zero_as_null results)
  = recommendations_get lower businessName results
  /\ (forall latest,
        avg_rank latest = None ->
        (5 <= length (keywords latest))%nat ->
        recommend latest
        = [ {| advice_action := "Maintain with LocalBoost";
               advice_product := "LocalBoost";
               advice_reason :=
                 Some "Great rankings (avg 0)! Maintain authority." |} ]).
Proof.
  split.
  - unfold recommendations_get.
    destruct (String.eqb businessName EmptyString); [reflexivity|].
    rewrite (filter_map_comm _ _ _
               (name_matches lower (lower businessName))
               scan_zero_as_null results (fun x => eq_refl)).
    destruct (filter (name_matches lower (lower businessName)) results)
      as [|latest rest]; [reflexivity|].
    cbn [map]. rewrite recommend_zero_as_null.
    cbn [scan_zero_as_null business avg_rank].
    rewrite truthy_zero_as_null.
    destruct (zero_as_null_cases (avg_rank latest)) as [[T E]|[T E]];
      rewrite T; [now rewrite E | reflexivity].
  - intros latest E K. unfold recommend. rewrite E. cbn [num].
    apply Nat.ltb_ge in K. rewrite K. reflexivity.
Qed.

Lemma recommendations_zero_as_null_witness :
  avg_rank unranked = None
  /\ (5 <= length (keywords unranked))%nat
  /\ map advice_action (recommend unranked) = ["Maintain with LocalBoost"].
Proof.
  assert (A : avg_rank unranked = None) by reflexivity.
  assert (B : (5 <= length (keywords unranked))%nat) by (simpl; lia).
  split; [exact A|]. split; [exact B|].
  rewrite (proj2 (recommendations_zero_as_null Sample.lower "glow" [])
             unranked A B).
  reflexivity.
Defined.

(** ** [email:draft] *)

(** X15: the sentence of [email:draft] on the change agrees with the
    status that [portfolio:summary] gives the same scans: it says
    improved where the status is [improving], dropped where it is
    [declining], and is empty where the status is [new]; it is empty
    exactly when there is nothing to compare or the two ranks are
    equal. *)
Theorem email_change_agrees (scans : list Scan) (avgRank : option Q) :
  (fst (classify scans avgRank) = Improving ->
     email_change scans avgRank
     = ("Rankings improved by "
        ++ show_round1 (num (second_rank scans) - num avgRank)
        ++ " positions!")%string)
  /\ (fst (classify scans avgRank) = Declining ->
        email_change scans avgRank
        = ("Rankings dropped by "
           ++ show_round1 (Math_abs (num (second_rank scans) - num avgRank))
           ++ " positions - we're working on recovery.")%string)
  /\ (fst (classify scans avgRank) = New ->
        email_change scans avgRank = EmptyString)
  /\ (email_change scans avgRank = EmptyString
      <-> fst (classify scans avgRank) = New
          \/ (num (second_rank scans) == num avgRank)%Q).
Proof.
  unfold classify, email_change. cbv zeta.
  destruct (2 <=? length scans)%nat;
    [|repeat split; try discriminate; auto].
  destruct (truthy avgRank && truthy (second_rank scans));
    [|repeat split; try discriminate; auto].
  set (d := (num (second_rank scans) - num avgRank)%Q).
  assert (Z : (d == 0 <-> num (second_rank scans) == num avgRank)%Q)
    by (unfold d; split; intros E; lra).
  destruct (gtb d (1 # 2)) eqn:G1; [|destruct (ltb d (- (1 # 2))) eqn:L1];
  destruct (gtb d 0) eqn:G0; try destruct (ltb d 0) eqn:L0;
  repeat match goal with
         | H : gtb _ _ = true |- _ => apply gtb_lt in H
         | H : gtb _ _ = false |- _ => apply gtb_le in H
         | H : ltb _ _ = true |- _ => apply ltb_lt in H
         | H : ltb _ _ = false |- _ => apply gtb_le in H
         end;
  try (exfalso; lra);
  cbn [fst]; repeat split; intros;
  try discriminate; try reflexivity;
  repeat match goal with
         | H : _ \/ _ |- _ => destruct H
         end;
  try discriminate; try (exfalso; lra);
  try (right; apply Z; lra).
Qed.

Lemma email_change_agrees_witness :
  fst (classify acme_listing (avg_rank Sample.acme_feb)) = Improving
  /\ email_change acme_listing (avg_rank Sample.acme_feb)
     = "Rankings improved by 4.3 positions!".
Proof.
  assert (H : fst (classify acme_listing (avg_rank Sample.acme_feb))
              = Improving) by reflexivity.
  split; [exact H|].
  rewrite (proj1 (email_change_agrees acme_listing
                    (avg_rank Sample.acme_feb)) H).
  vm_compute. reflexivity.
Defined.

(** ** The command line *)

Lemma In_set (V : Type) (k k' : string) (v v' : V) (o : object V) :
  In (k, v) (set k' v' o) -> (k = k' /\ v = v') \/ In (k, v) o.
Proof.
  induction o as [|[k0 v0] o IH]; simpl.
  - intros [[= <- <-]|[]]. now left.
  - destruct (String.eqb k' k0) eqn:E; simpl.
    + apply String.eqb_eq in E. subst k0.
      intros [[= <- <-]|H]; [now left | now right; right].
    + intros [H|H]; [now right; left|].
      destruct (IH H) as [H'|H']; [now left | now right; right].
Qed.

(** What [parse_from] adds to the arguments parsed so far. *)
Lemma parse_from_adds (n : nat) (argv : list string) (args : Args) :
  (length argv <= n)%nat ->
  (forall p, In p (positional (parse_from argv args)) ->
     In p (positional args)
     \/ (In p argv /\ starts_with_dashes p = false))
  /\ (forall k v, In (k, v) (flags (parse_from argv args)) ->
        In (k, v) (flags args)
        \/ (In k argv /\ starts_with_dashes k = true
            /\ forall s, v = FlagText s ->
                 In s argv /\ s <> EmptyString
                 /\ starts_with_dashes s = false))
  /\ (NoDup (map fst (flags args)) ->
      NoDup (map fst (flags (parse_from argv args)))).
Proof.
  revert argv args. induction n as [|n IH]; intros argv args Hlen.
  - destruct argv; [|simpl in Hlen; lia]. simpl. tauto.
  - destruct argv as [|arg rest]; [simpl; tauto|].
    simpl in Hlen. cbn [parse_from].
    destruct (starts_with_dashes arg) eqn:D.
    + assert (Bare :
        (forall p,
           In p (positional
                   (parse_from rest
                      {| positional := positional args;
                         flags := set arg FlagTrue (flags args) |})) ->
           In p (positional args)
           \/ (In p (arg :: rest) /\ starts_with_dashes p = false))
        /\ (forall k v,
              In (k, v)
                (flags
                   (parse_from rest
                      {| positional := positional args;
                         flags := set arg FlagTrue (flags args) |})) ->
              In (k, v) (flags args)
              \/ (In k (arg :: rest) /\ starts_with_dashes k = true
                  /\ forall s, v = FlagText s ->
                       In s (arg :: rest) /\ s <> EmptyString
                       /\ starts_with_dashes s = false))
        /\ (NoDup (map fst (flags args)) ->
            NoDup (map fst
                     (flags
                        (parse_from rest
                           {| positional := positional args;
                              flags := set arg FlagTrue (flags args) |}))))).
      { destruct (IH rest
                    {| positional := positional args;
                       flags := set arg FlagTrue (flags args) |})
          as [Hp [Hf Hn]]; [lia|]. cbn [positional flags] in *.
        split; [|split].
        - intros p Hin. destruct (Hp p Hin) as [H|[H1 H2]]; [now left|].
          right. split; [now right | exact H2].
        - intros k v Hin. destruct (Hf k v Hin) as [H|[H1 [H2 H3]]].
          + apply In_set in H. destruct H as [[-> ->]|H]; [|now left].
            right. split; [now left|]. split; [exact D|]. discriminate.
          + right. split; [now right|]. split; [exact H2|].
            intros s Es. destruct (H3 s Es) as [A [B C]].
            split; [now right | now split].
        - intros N. apply Hn. now apply NoDup_set. }
      destruct rest as [|next rest']; [exact Bare|].
      destruct (truthy_text next && negb (starts_with_dashes next)) eqn:T;
        [|exact Bare].
      apply andb_prop in T. destruct T as [T1 T2].
      apply negb_true_iff in T2.
      assert (Tn : next <> EmptyString).
      { intros ->. discriminate. }
      destruct (IH rest'
                  {| positional := positional args;
                     flags := set arg (FlagText next) (flags args) |})
        as [Hp [Hf Hn]]; [simpl in Hlen; lia|].
      cbn [positional flags] in *.
      split; [|split].
      * intros p Hin. destruct (Hp p Hin) as [H|[H1 H2]]; [now left|].
        right. split; [now right; right | exact H2].
      * intros k v Hin. destruct (Hf k v Hin) as [H|[H1 [H2 H3]]].
        -- apply In_set in H. destruct H as [[-> ->]|H]; [|now left].
           right. split; [now left|]. split; [exact D|].
           intros s [= <-]. split; [right; now left | now split].
        -- right. split; [now right; right|]. split; [exact H2|].
           intros s Es. destruct (H3 s Es) as [A [B C]].
           split; [now right; right | now split].
      * intros N. apply Hn. now apply NoDup_set.
    + destruct (IH rest
                  {| positional := positional args ++ [arg];
                     flags := flags args |})
        as [Hp [Hf Hn]]; [lia|]. cbn [positional flags] in *.
      split; [|split].
      * intros p Hin. destruct (Hp p Hin) as [H|[H1 H2]].
        -- apply in_app_or in H. destruct H as [H|[<-|[]]]; [now left|].
           right. split; [now left | exact D].
        -- right. split; [now right | exact H2].
      * intros k v Hin. destruct (Hf k v Hin) as [H|[H1 [H2 H3]]];
          [now left|].
        right. split; [now right|]. split; [exact H2|].
        intros s Es. destruct (H3 s Es) as [A [B C]].
        split; [now right | now split].
      * exact Hn.
Qed.

(** X16: [parseArgs] puts among the positional arguments only
    arguments that do not start with two dashes; the name of every
    option starts with two dashes, an option occurs once, and its
    value, when it is not the boolean [true], is an argument that is
    not empty and does not start with two dashes. *)
Theorem parseArgs_invariants (argv : list string) :
  (forall p, In p (positional (parseArgs argv)) ->
     In p argv /\ starts_with_dashes p = false)
  /\ (forall k v, In (k, v) (flags (parseArgs argv)) ->
        In k argv /\ starts_with_dashes k = true
        /\ forall s, v = FlagText s ->
             In s argv /\ s <> EmptyString /\ starts_with_dashes s = false)
  /\ NoDup (map fst (flags (parseArgs argv))).
Proof.
  unfold parseArgs.
  destruct (parse_from_adds (length argv) argv
              {| positional := []; flags := [] |} (le_n _))
    as [Hp [Hf Hn]].
  cbn [positional flags] in *. split; [|split].
  - intros p Hin. destruct (Hp p Hin) as [[]|H]. exact H.
  - intros k v Hin. destruct (Hf k v Hin) as [[]|H]. exact H.
  - apply Hn. constructor.
Qed.

(** An option as last argument is a bare flag. *)
Lemma parse_from_last_flag (n : nat) (flag : string) (pre : list string)
  (args : Args) :
  (length pre <= n)%nat ->
  starts_with_dashes flag = true ->
  parse_from (pre ++ [flag]) args
  = {| positional := positional (parse_from pre args);
       flags := set flag FlagTrue (flags (parse_from pre args)) |}.
Proof.
  intros Hlen D. revert pre args Hlen.
  induction n as [|n IH]; intros pre args Hlen.
  - destruct pre; [|simpl in Hlen; lia]. simpl. now rewrite D.
  - destruct pre as [|arg rest]; [simpl; now rewrite D|].
    simpl in Hlen. cbn [app parse_from].
    destruct (starts_with_dashes arg) eqn:Da.
    + destruct rest as [|next rest'].
      * cbn [app]. rewrite D, andb_false_r.
        apply (IH [] _). simpl. lia.
      * cbn [app].
        destruct (truthy_text next && negb (starts_with_dashes next)).
        -- apply IH. simpl in Hlen. lia.
        -- apply (IH (next :: rest')). lia.
    + apply IH. lia.
Qed.

(** X17: [client:report NAME] and [client:report --business NAME] report
    on the same business, for a name that is not empty and does not
    start with two dashes; when [--business] is the last argument it is
    a bare flag, its value is the boolean [true] and the command raises
    instead of printing its usage. *)
Theorem client_report_business_argument (api : string -> Scan)
  (lower : string -> string) (results : list Scan) :
  (forall n,
     n <> EmptyString -> starts_with_dashes n = false ->
     client_report_cli api lower [n] results
     = Ok (client_report api lower n results)
     /\ client_report_cli api lower ["--business"; n] results
        = Ok (client_report api lower n results))
  /\ (forall pre,
        client_report_cli api lower (pre ++ ["--business"]) results
        = Throw "businessName.toLowerCase is not a function").
Proof.
  split.
  - intros n Hn D.
    assert (T : truthy_text n = true).
    { unfold truthy_text. apply negb_true_iff. now apply String.eqb_neq. }
    assert (P1 : parseArgs [n] = {| positional := [n]; flags := [] |}).
    { unfold parseArgs. cbn [parse_from]. now rewrite D. }
    assert (P2 : parseArgs ["--business"; n]
                 = {| positional := [];
                      flags := [("--business", FlagText n)] |}).
    { unfold parseArgs. cbn [parse_from].
      change (starts_with_dashes "--business") with true. cbv iota.
      now rewrite D, T. }
    unfold client_report_cli. rewrite P1, P2. unfold business_arg.
    cbn [positional flags own]. rewrite String.eqb_refl, T.
    split; reflexivity.
  - intros pre. unfold client_report_cli, parseArgs.
    rewrite (parse_from_last_flag (length pre) "--business" pre _ (le_n _)
               eq_refl).
    unfold business_arg. cbn [flags]. rewrite own_set, String.eqb_refl.
    reflexivity.
Qed.

Lemma client_report_business_argument_witness :
  "acme" <> EmptyString
  /\ starts_with_dashes "acme" = false
  /\ client_report_cli (Sample.details acme_listing) Sample.lower
       ["--business"; "acme"] acme_listing
     = Ok (client_report (Sample.details acme_listing) Sample.lower "acme"
             acme_listing).
Proof.
  assert (A : "acme" <> EmptyString) by discriminate.
  assert (B : starts_with_dashes "acme" = false) by reflexivity.
  split; [exact A|]. split; [exact B|].
  exact (proj2 (proj1 (client_report_business_argument
                         (Sample.details acme_listing) Sample.lower
                         acme_listing) "acme" A B)).
Defined.

Lemma parseArgs_invariants_witness :
  In ("--business", FlagText "Acme")
     (flags (parseArgs ["--business"; "Acme"; "x"; "--json"]))
  /\ In "Acme" ["--business"; "Acme"; "x"; "--json"]
  /\ "Acme" <> EmptyString
  /\ starts_with_dashes "Acme" = false.
Proof.
  assert (H : In ("--business", FlagText "Acme")
                (flags (parseArgs ["--business"; "Acme"; "x"; "--json"])))
    by (left; reflexivity).
  split; [exact H|].
  destruct (proj1 (proj2 (parseArgs_invariants
                            ["--business"; "Acme"; "x"; "--json"]))
              _ _ H) as [_ [_ Hs]].
  exact (Hs "Acme" eq_refl).
Defined.

(** ** More on the daily priorities and on the summary *)






